(** * Masterblog API: the Flask handlers of [backend/backend_app.py]

    The service keeps one process-wide list [POSTS] of posts and answers five
    routes over it.  Every handler is embedded as a function from the
    collection before the request to the outcome of the request and the
    collection after it.

    Python values are embedded as follows.
    - [str] is [string], the UTF-8 bytes of the text: the order of the
      bytes is the order of the code points, which is [<] on [str], and
      [q in s] is [contains].
    - [str.lower] is a variable [lower] of the handlers: its case tables are
      Python's, not the repository's.  What the proofs use of it is stated
      where it is used: on text of ASCII characters it is [ascii_lower]
      ([lowers_ascii]), and it gives the empty string for the empty string
      only ([keeps_nonempty]).
    - the value of [request.get_json()] is a [json]; [int] is [Z]; a query
      parameter that may be absent is an [option string].
    - the title and the content of a post are the values the requests put
      there, strings or not; the statements that need strings say so.
    - an exception that no handler catches is the outcome [Raised].

    [Py] has the Python primitives, [Blog] the handlers, [Terms] the
    vocabulary of the statements, [PyFacts], [BlogFacts] and [Laws] the
    proofs. *)

From Stdlib Require Import List ZArith Bool Ascii String Lia.
From Stdlib Require Import Permutation Sorted DecimalString.
From Stdlib Require Import Floats.SpecFloat.
Import ListNotations.

Local Open Scope string_scope.
Local Open Scope Z_scope.
Set Warnings "-register-all".

(** ** Python primitives used by the handlers *)

Module Py.

(** What [json.loads] can give back.  An object is the list of its members
    in the order of the text. *)
Inductive json : Type :=
| JNull
| JBool (b : bool)
| JInt (n : Z)
| JFloat (f : spec_float)
| JStr (s : string)
| JArr (items : list json)
| JObj (members : list (string * json)).

Inductive exn : Type :=
| AttributeError
| KeyError
| ValueError.

(** [bool(v)]: [None], [False], zero, and empty strings, lists and dicts
    are falsy. *)
Definition truthy (v : json) : bool :=
  match v with
  | JNull => false
  | JBool b => b
  | JInt n => negb (n =? 0)
  | JFloat (S754_zero _) => false
  | JFloat _ => true
  | JStr s => negb (s =? "")%string
  | JArr items => match items with [] => false | _ :: _ => true end
  | JObj members => match members with [] => false | _ :: _ => true end
  end.

(** A computation that may raise: [inl e] is the exception [e]. *)
Definition ret {A : Type} (x : A) : exn + A := inr x.

Definition bind {A B : Type} (m : exn + A) (k : A -> exn + B) : exn + B :=
  match m with
  | inl e => inl e
  | inr x => k x
  end.

Notation "x <- m ;; k" := (bind m (fun x => k))
  (at level 61, m at next level, right associativity).

(** The binding of [key] in the dict built from [members]: a key that
    occurs twice in the text keeps its last value. *)
Fixpoint dict_get (key : string) (members : list (string * json)) : option json :=
  match members with
  | [] => None
  | (k, v) :: rest =>
      match dict_get key rest with
      | Some v' => Some v'
      | None => if (k =? key)%string then Some v else None
      end
  end.

(** [data.get(key, default)]; [data.get(key)] is [data.get(key, None)].
    Only a dict has [get]. *)
Definition get_default (data : json) (key : string) (default : json) : exn + json :=
  match data with
  | JObj members =>
      ret (match dict_get key members with Some v => v | None => default end)
  | _ => inl AttributeError
  end.

Definition get (data : json) (key : string) : exn + json :=
  get_default data key JNull.

(** [data[key]] on the request body *)
Definition getitem (data : json) (key : string) : exn + json :=
  match data with
  | JObj members =>
      match dict_get key members with
      | Some v => ret v
      | None => inl KeyError
      end
  | _ => inl AttributeError
  end.

(** Whether two values are the same for a scan that tests [y is x or
    y == x]: [same_float] and [same] compare the structure, so a value is
    always the same as itself, a [nan] too.  Python's [==] also holds
    between some values of different structure ([1 == 1.0 == True]); the
    one scan of the handlers, in [delete_post], ends before that matters. *)
Definition same_float (x y : spec_float) : bool :=
  match x, y with
  | S754_zero s, S754_zero s' => Bool.eqb s s'
  | S754_infinity s, S754_infinity s' => Bool.eqb s s'
  | S754_nan, S754_nan => true
  | S754_finite s m e, S754_finite s' m' e' =>
      Bool.eqb s s' && (m =? m')%positive && (e =? e')
  | _, _ => false
  end.

Fixpoint same (a b : json) : bool :=
  match a, b with
  | JNull, JNull => true
  | JBool x, JBool y => Bool.eqb x y
  | JInt x, JInt y => x =? y
  | JFloat x, JFloat y => same_float x y
  | JStr x, JStr y => (x =? y)%string
  | JArr xs, JArr ys =>
      (fix all2 (xs ys : list json) : bool :=
         match xs, ys with
         | [], [] => true
         | x :: xs', y :: ys' => same x y && all2 xs' ys'
         | _, _ => false
         end) xs ys
  | JObj xs, JObj ys =>
      (fix all2 (xs ys : list (string * json)) : bool :=
         match xs, ys with
         | [], [] => true
         | (k, x) :: xs', (k', y) :: ys' =>
             (k =? k')%string && same x y && all2 xs' ys'
         | _, _ => false
         end) xs ys
  | _, _ => false
  end.

(** [s.isascii()], and [s.lower()] for such a string: the letters [A]..[Z]
    are folded, every other character stays. *)
Definition is_ascii (s : string) : bool :=
  forallb (fun c => (nat_of_ascii c <? 128)%nat) (list_ascii_of_string s).

Definition ascii_lower_char (c : ascii) : ascii :=
  let n := nat_of_ascii c in
  if ((65 <=? n) && (n <=? 90))%nat then ascii_of_nat (n + 32) else c.

Fixpoint ascii_lower (s : string) : string :=
  match s with
  | EmptyString => EmptyString
  | String c s' => String (ascii_lower_char c) (ascii_lower s')
  end.

(** [v.lower()] for a value that need not be a [str]; [lower] is
    [str.lower]. *)
Definition lower_method (lower : string -> string) (v : json) : exn + string :=
  match v with
  | JStr s => inr (lower s)
  | _ => inl AttributeError
  end.

(** [q in s] on strings *)
Fixpoint contains (q s : string) : bool :=
  String.prefix q s ||
  match s with
  | EmptyString => false
  | String _ s' => contains q s'
  end.

(** [x in xs] for a list of strings *)
Definition mem (x : string) (xs : list string) : bool :=
  existsb (String.eqb x) xs.

(** The value of [request.args.get(name, None)] is a [str] or [None]:
    [bool(x)] and [x in xs] for such a value. *)
Definition truthy_arg (x : option string) : bool :=
  match x with
  | Some s => negb (s =? "")%string
  | None => false
  end.

Definition arg_in (x : option string) (xs : list string) : bool :=
  match x with
  | Some s => mem s xs
  | None => false
  end.

(** [str(n)] for an integer *)
Definition str_of_int (n : Z) : string :=
  NilZero.string_of_int (Z.to_int n).

Section ListOps.
Context {A : Type}.

(** [next((x for x in l if test(x)), None)], with the place of the item
    found: the result is that very item of [l], not a copy. *)
Fixpoint next_from (i : nat) (test : A -> bool) (l : list A) : option (nat * A) :=
  match l with
  | [] => None
  | x :: rest => if test x then Some (i, x) else next_from (S i) test rest
  end.

Definition next (test : A -> bool) (l : list A) : option (nat * A) :=
  next_from 0 test l.

(** The list after the item at place [i] has been mutated into [x]. *)
Fixpoint mutate (i : nat) (x : A) (l : list A) : list A :=
  match l, i with
  | [], _ => []
  | _ :: rest, O => x :: rest
  | y :: rest, S i' => y :: mutate i' x rest
  end.

(** [l.remove(x)]: drops the first item that is [x] or equals [x]; raises
    [ValueError] when there is none. *)
Fixpoint remove (is_x : A -> bool) (l : list A) : exn + list A :=
  match l with
  | [] => inl ValueError
  | y :: rest =>
      if is_x y then inr rest
      else match remove is_x rest with
           | inr rest' => inr (y :: rest')
           | inl e => inl e
           end
  end.

(** The keys of [l.sort(key=...)] are all computed before anything moves;
    the first failing call ends the sort. *)
Fixpoint keyed (key : A -> exn + string) (l : list A) : exn + list (string * A) :=
  match l with
  | [] => inr []
  | x :: rest =>
      match key x with
      | inl e => inl e
      | inr k =>
          match keyed key rest with
          | inl e => inl e
          | inr ks => inr ((k, x) :: ks)
          end
      end
  end.

(** One step of a stable sort: [x] goes in front of the first item whose
    key is not smaller than its own. *)
Fixpoint insert (x : string * A) (l : list (string * A)) : list (string * A) :=
  match l with
  | [] => [x]
  | y :: rest =>
      if String.ltb (fst y) (fst x) then y :: insert x rest
      else x :: y :: rest
  end.

Definition stable_sort (l : list (string * A)) : list (string * A) :=
  fold_right insert [] l.

(** [l.sort(key=key, reverse=reverse)]: a stable sort on the keys; with
    [reverse] the list is reversed before and after, which keeps items of
    equal keys in their first order. *)
Definition sort (key : A -> exn + string) (reverse : bool) (l : list A) : exn + list A :=
  match keyed key l with
  | inl e => inl e
  | inr ks =>
      inr (map snd (if reverse then rev (stable_sort (rev ks))
                    else stable_sort ks))
  end.
End ListOps.

End Py.

(** ** The handlers *)

Module Blog.
Import Py.

(** A post is a dict with the keys ["id"], ["title"] and ["content"]. *)
Record post : Type := {
  post_id : Z;
  post_title : json;
  post_content : json
}.

(** [post[key]], for a key that is a [str] or [None] *)
Definition post_getitem (p : post) (key : option string) : exn + json :=
  match key with
  | Some k =>
      if (k =? "id")%string then ret (JInt (post_id p))
      else if (k =? "title")%string then ret (post_title p)
      else if (k =? "content")%string then ret (post_content p)
      else inl KeyError
  | None => inl KeyError
  end.

(** [post["title"] = v] and [post["content"] = v] *)
Definition set_title (p : post) (v : json) : post :=
  {| post_id := post_id p; post_title := v; post_content := post_content p |}.

Definition set_content (p : post) (v : json) : post :=
  {| post_id := post_id p; post_title := post_title p; post_content := v |}.

(** The test of [POSTS.remove(x)] on an item [y]: [y is x or y == x].  The
    keys of a dict are compared in turn, ["id"] first; in [delete_post] the
    scan meets posts of another id and then [x] itself. *)
Definition same_post (x y : post) : bool :=
  (post_id y =? post_id x)
  && same (post_title y) (post_title x)
  && same (post_content y) (post_content x).

(** The posts of [POSTS] when the process starts. *)
Definition first_post : post :=
  {| post_id := 1; post_title := JStr "First post";
     post_content := JStr "This is the first post." |}.

Definition second_post : post :=
  {| post_id := 2; post_title := JStr "Second post";
     post_content := JStr "This is the second post." |}.

Definition third_post : post :=
  {| post_id := 3; post_title := JStr "Third post";
     post_content := JStr "This is the third post." |}.

Definition POSTS0 : list post := [first_post; second_post; third_post].

(** What [jsonify] is given. *)
Inductive payload : Type :=
| Posts (l : list post)
| Post (p : post)
| Error (msg : string)
| Message (msg : string).

(** The answer to a request: a body and a status, or an exception that
    leaves the handler. *)
Inductive outcome : Type :=
| Response (body : payload) (status : Z)
| Raised (e : exn).

Definition result : Type := outcome * list post.

(** No handler has changed [POSTS] yet at a point where it can raise. *)
Definition serve (POSTS : list post) (m : exn + result) : result :=
  match m with
  | inl e => (Raised e, POSTS)
  | inr r => r
  end.

Definition or_default (o : option string) (default : string) : string :=
  match o with
  | Some s => s
  | None => default
  end.

(** The handlers; [lower] is [str.lower]. *)
Section Lower.
Variable lower : string -> string.

(** [GET /api/posts]; [sort_by] is [request.args.get('sort', None)], and
    [direction] is the parameter of that name when the request has it. *)
Definition get_posts (sort_by direction : option string) (POSTS : list post) : result :=
  let direction := lower (or_default direction "asc") in
  if truthy_arg sort_by && negb (arg_in sort_by ["title"; "content"]) then
    (Response (Error "Invalid sort field. Must be 'title' or 'content'.") 400, POSTS)
  else if negb (mem direction ["asc"; "desc"]) then
    (Response (Error "Invalid direction. Must be 'asc' or 'desc'.") 400, POSTS)
  else if truthy_arg sort_by then
    let reverse := if (direction =? "desc")%string then true else false in
    serve POSTS (
      sorted <- Py.sort (fun post => v <- post_getitem post sort_by;;
                                     lower_method lower v)
                        reverse POSTS;;
      ret (Response (Posts sorted) 200, sorted))
  else
    (Response (Posts POSTS) 200, POSTS).

(** [max(post["id"] for post in POSTS) + 1 if POSTS else 1] *)
Definition next_id (POSTS : list post) : Z :=
  match POSTS with
  | [] => 1
  | p :: rest => fold_left Z.max (map post_id rest) (post_id p) + 1
  end.

(** [POST /api/posts] *)
Definition create_post (data : json) (POSTS : list post) : result :=
  serve POSTS (
    title <- get data "title";;
    missing <- (if negb (truthy title) then ret true
                else content <- get data "content";; ret (negb (truthy content)));;
    if (missing : bool) then
      ret (Response (Error "Both 'title' and 'content' are required") 400, POSTS)
    else
      let id := next_id POSTS in
      title <- getitem data "title";;
      content <- getitem data "content";;
      let new_post := {| post_id := id; post_title := title; post_content := content |} in
      ret (Response (Post new_post) 201, (POSTS ++ [new_post])%list)).

(** [DELETE /api/posts/<int:id>] *)
Definition delete_post (id : Z) (POSTS : list post) : result :=
  match next (fun post => post_id post =? id) POSTS with
  | Some (_, post_to_delete) =>
      serve POSTS (
        rest <- remove (same_post post_to_delete) POSTS;;
        ret (Response (Message ("Post with id " ++ str_of_int id
                                ++ " has been deleted successfully.")) 200, rest))
  | None => (Response (Error "Post not found") 404, POSTS)
  end.

(** [PUT /api/posts/<int:id>] *)
Definition update_post (id : Z) (data : json) (POSTS : list post) : result :=
  match next (fun post => post_id post =? id) POSTS with
  | None => (Response (Error "Post not found") 404, POSTS)
  | Some (i, post_to_update) =>
      serve POSTS (
        title <- get_default data "title" (post_title post_to_update);;
        let post_to_update := set_title post_to_update title in
        content <- get_default data "content" (post_content post_to_update);;
        let post_to_update := set_content post_to_update content in
        ret (Response (Post post_to_update) 200, mutate i post_to_update POSTS))
  end.

(** The condition of the comprehension in [search_posts]. *)
Definition matches (title_query content_query : string) (post : post) : exn + bool :=
  in_title <- (if negb (title_query =? "")%string
               then t <- lower_method lower (post_title post);;
                    ret (contains title_query t)
               else ret true);;
  if (in_title : bool) then
    if negb (content_query =? "")%string
    then c <- lower_method lower (post_content post);;
         ret (contains content_query c)
    else ret true
  else ret false.

(** [[x for x in l if test(x)]] for a test that may raise *)
Fixpoint comprehension (test : post -> exn + bool) (l : list post) : exn + list post :=
  match l with
  | [] => ret []
  | x :: rest =>
      keep <- test x;;
      kept <- comprehension test rest;;
      ret (if (keep : bool) then x :: kept else kept)
  end.

(** [GET /api/posts/search] *)
Definition search_posts (title content : option string) (POSTS : list post) : result :=
  let title_query := lower (or_default title "") in
  let content_query := lower (or_default content "") in
  serve POSTS (
    filtered_posts <- comprehension (matches title_query content_query) POSTS;;
    ret (Response (Posts filtered_posts) 200, POSTS)).

(** The five routes. *)
Inductive request : Type :=
| GetPosts (sort direction : option string)
| CreatePost (data : json)
| DeletePost (id : Z)
| UpdatePost (id : Z) (data : json)
| SearchPosts (title content : option string).

Definition handle (r : request) (POSTS : list post) : result :=
  match r with
  | GetPosts sort direction => get_posts sort direction POSTS
  | CreatePost data => create_post data POSTS
  | DeletePost id => delete_post id POSTS
  | UpdatePost id data => update_post id data POSTS
  | SearchPosts title content => search_posts title content POSTS
  end.
End Lower.

End Blog.

(** ** Vocabulary of the statements *)

Module Terms.
Import Py Blog.
Local Close Scope string_scope.

(** *** [str.lower] *)

(** [lower] is [ascii_lower] on text of ASCII characters. *)
Definition lowers_ascii (lower : string -> string) : Prop :=
  forall s, is_ascii s = true -> lower s = ascii_lower s.

(** [lower] gives the empty string for the empty string only. *)
Definition keeps_nonempty (lower : string -> string) : Prop :=
  forall s, lower s = EmptyString -> s = EmptyString.

(** [lower] changes nothing in what it has put in lower case. *)
Definition lowers_once (lower : string -> string) : Prop :=
  forall s, lower (lower s) = lower s.

(** *** Strings and lists *)

(** [q] occurs in [s]. *)
Definition occurs_in (q s : string) : Prop :=
  exists pre post, s = (pre ++ q ++ post)%string.

(** [s1 <= s2] on [str] *)
Definition le (s1 s2 : string) : Prop := String.leb s1 s2 = true.

(** The order of items that carry their key, and the items of one key. *)
Definition key_le {A : Type} (x y : string * A) : Prop := le (fst x) (fst y).

Definition has_key {A : Type} (k : string) (x : string * A) : bool :=
  String.eqb (fst x) k.

(** An item with its key [k a], and the items that carry that key. *)
Definition decorate {A : Type} (k : A -> string) (a : A) : string * A := (k a, a).

Definition decorated {A : Type} (k : A -> string) (x : string * A) : Prop :=
  fst x = k (snd x).

(** In the order of [l.sort], ascending or descending, for the keys [k] *)
Definition in_order {A : Type} (k : A -> string) (reverse : bool) (a b : A) : Prop :=
  if reverse then le (k b) (k a) else le (k a) (k b).

(** No item of [l] passes [test]. *)
Definition none_passes {A : Type} (test : A -> bool) (l : list A) : Prop :=
  Forall (fun x => test x = false) l.

(** [m] is the greatest of [l]. *)
Definition greatest (m : Z) (l : list Z) : Prop :=
  In m l /\ Forall (fun n => n <= m) l.

(** *** Collections *)

(** No post of [l] has the id [id]. *)
Definition absent (id : Z) (l : list post) : Prop :=
  Forall (fun p => post_id p <> id) l.

(** The ids of a collection are pairwise distinct. *)
Definition unique_ids (l : list post) : Prop := NoDup (map post_id l).

(** The data model: the title and the content of a post are strings. *)
Definition is_str (v : json) : bool :=
  match v with
  | JStr _ => true
  | _ => false
  end.

Definition text (v : json) : string :=
  match v with
  | JStr s => s
  | _ => EmptyString
  end.

Definition well_typed (p : post) : Prop :=
  is_str (post_title p) = true /\ is_str (post_content p) = true.

(** The strings of a post are text of ASCII characters. *)
Definition ascii_post (p : post) : bool :=
  is_ascii (text (post_title p)) && is_ascii (text (post_content p)).

(** *** List requests *)

Definition valid_sort (sort_by : string) : Prop :=
  sort_by = "title"%string \/ sort_by = "content"%string.


(** The field a list request sorts by. *)
Definition field (sort_by : string) (p : post) : json :=
  if String.eqb sort_by "title" then post_title p else post_content p.

(** The key of a post in a sort by [sort_by]: the field in lower case. *)
Definition sort_key (lower : string -> string) (sort_by : string) (p : post) : string :=
  lower (text (field sort_by p)).

(** The direction of a request once defaulted and put in lower case. *)
Definition direction_of (lower : string -> string) (direction : option string) : string :=
  lower (or_default direction "asc").

Definition valid_direction (lower : string -> string) (direction : option string) : Prop :=
  direction_of lower direction = "asc"%string
  \/ direction_of lower direction = "desc"%string.

Definition descending (lower : string -> string) (direction : option string) : bool :=
  String.eqb (direction_of lower direction) "desc".

(** *** Create and update requests *)

(** A create request supplies [key]: the body has it with a truthy value. *)
Definition supplied (members : list (string * json)) (key : string) : bool :=
  match dict_get key members with
  | Some v => truthy v
  | None => false
  end.

(** The value of a field after an update: the value of the body when the
    body has the key, the old value otherwise. *)
Definition replaced (members : list (string * json)) (key : string) (old : json) : json :=
  match dict_get key members with
  | Some v => v
  | None => old
  end.

Definition updated (members : list (string * json)) (p : post) : post :=
  {| post_id := post_id p;
     post_title := replaced members "title" (post_title p);
     post_content := replaced members "content" (post_content p) |}.

(** *** Search requests *)

(** A post matches the queries of a search request. *)
Definition hit (lower : string -> string) (title content : string) (p : post) : Prop :=
  (title = EmptyString
   \/ occurs_in (lower title) (lower (text (post_title p))))
  /\ (content = EmptyString
      \/ occurs_in (lower content) (lower (text (post_content p)))).

(** The test of the comprehension of [search_posts], for posts of the data
    model and queries in lower case. *)
Definition keep (lower : string -> string) (title_query content_query : string)
           (p : post) : bool :=
  (String.eqb title_query "" || contains title_query (lower (text (post_title p))))
  && (String.eqb content_query ""
      || contains content_query (lower (text (post_content p)))).

(** *** Requests in general *)

(** The request was served: it answered 200 or 201. *)
Definition succeeded (o : outcome) : bool :=
  match o with
  | Response _ status => (status =? 200) || (status =? 201)
  | Raised _ => false
  end.

(** The routes that neither add nor remove a post. *)
Definition keeps_posts (r : request) : bool :=
  match r with
  | CreatePost _ | DeletePost _ => false
  | GetPosts _ _ | UpdatePost _ _ | SearchPosts _ _ => true
  end.

(** Every id of a collection is positive. *)
Definition positive_ids (l : list post) : Prop :=
  Forall (fun n => 0 < n) (map post_id l).

(** A body whose title and content, where it has them, are strings; and a
    request with such a body, or without one. *)
Definition string_fields (members : list (string * json)) : Prop :=
  (forall v, dict_get "title" members = Some v -> is_str v = true)
  /\ (forall v, dict_get "content" members = Some v -> is_str v = true).

Definition sends_strings (r : request) : Prop :=
  match r with
  | CreatePost (JObj members) | UpdatePost _ (JObj members) => string_fields members
  | _ => True
  end.

(** The collection after the requests [rs] have been served in turn. *)
Definition run (lower : string -> string) (rs : list request) (POSTS : list post) :
  list post :=
  fold_left (fun collection r => snd (handle lower r collection)) rs POSTS.

End Terms.

(** ** Facts about the primitives *)

Module PyFacts.
Import Py Terms.

(** *** Strings *)

Lemma ascii_lower_lowers_ascii : lowers_ascii ascii_lower.
Proof. intros s _. reflexivity. Qed.

Lemma ascii_lower_keeps_nonempty : keeps_nonempty ascii_lower.
Proof. intros [|c s] H; [reflexivity | discriminate H]. Qed.

Lemma ascii_lower_char_twice (c : ascii) :
  ascii_lower_char (ascii_lower_char c) = ascii_lower_char c.
Proof. destruct c as [[] [] [] [] [] [] [] []]; reflexivity. Qed.

Lemma ascii_lower_lowers_once : lowers_once ascii_lower.
Proof.
  intros s. induction s as [|c s IH]; cbn [ascii_lower]; [reflexivity|].
  now rewrite ascii_lower_char_twice, IH.
Qed.

Section LowerFacts.
Variable lower : string -> string.
Hypothesis Hascii : lowers_ascii lower.
Hypothesis Hnonempty : keeps_nonempty lower.

Lemma lower_empty_string : lower "" = "".
Proof. now rewrite Hascii. Qed.

Lemma eqb_empty_lower (s : string) : (lower s =? "")%string = (s =? "")%string.
Proof.
  destruct (String.eqb_spec s "") as [->|Hs].
  - rewrite lower_empty_string. reflexivity.
  - apply String.eqb_neq. intros H. now apply Hs, Hnonempty.
Qed.
End LowerFacts.

Lemma prefix_iff (q s : string) :
  String.prefix q s = true <-> exists post, s = (q ++ post)%string.
Proof.
  revert s. induction q as [|a q IH]; intros s; simpl.
  - destruct s; split; intros _; try reflexivity; eexists; reflexivity.
  - destruct s as [|b s]; simpl.
    + split; [discriminate | intros [post H]; discriminate H].
    + destruct (ascii_dec a b) as [->|Hne].
      * rewrite IH. split; intros [post H]; exists post.
        -- now rewrite H.
        -- now injection H.
      * split; [discriminate | intros [post H]].
        injection H as Hab _. now elim Hne.
Qed.

Lemma contains_iff (q s : string) : contains q s = true <-> occurs_in q s.
Proof.
  unfold occurs_in. induction s as [|b s IH].
  - cbn [contains]. rewrite orb_false_r, prefix_iff. split.
    + intros [post H]. exists "", post. exact H.
    + intros [pre [post H]]. destruct pre as [|c pre]; [|discriminate H].
      exists post. exact H.
  - cbn [contains]. rewrite orb_true_iff, prefix_iff, IH. split.
    + intros [[post H] | [pre [post H]]].
      * exists "", post. exact H.
      * exists (String b pre), post. simpl. now rewrite H.
    + intros [pre [post H]]. destruct pre as [|c pre].
      * left. exists post. exact H.
      * right. exists pre, post. simpl in H. now injection H.
Qed.

Lemma contains_refl (s : string) : contains s s = true.
Proof.
  apply contains_iff. exists "", "". simpl.
  induction s as [|c s IH]; simpl; [reflexivity | now rewrite <- IH].
Qed.

(** *** The order of [str] *)

Lemma ascii_compare_refl (a : ascii) : Ascii.compare a a = Eq.
Proof. unfold Ascii.compare. apply N.compare_refl. Qed.

Lemma ascii_compare_lt_trans (a b c : ascii) :
  Ascii.compare a b = Lt -> Ascii.compare b c = Lt -> Ascii.compare a c = Lt.
Proof.
  unfold Ascii.compare. rewrite !N.compare_lt_iff. apply N.lt_trans.
Qed.

Lemma compare_refl (s : string) : String.compare s s = Eq.
Proof.
  induction s as [|a s IH]; simpl; [reflexivity|].
  now rewrite ascii_compare_refl.
Qed.

Lemma compare_lt_trans (s1 s2 s3 : string) :
  String.compare s1 s2 = Lt -> String.compare s2 s3 = Lt ->
  String.compare s1 s3 = Lt.
Proof.
  revert s2 s3. induction s1 as [|a s1 IH]; intros [|b s2] [|c s3]; simpl;
    try reflexivity; try discriminate.
  destruct (Ascii.compare a b) eqn:Hab; try discriminate;
    destruct (Ascii.compare b c) eqn:Hbc; try discriminate; intros H12 H23.
  - apply Ascii.compare_eq_iff in Hab, Hbc. subst.
    rewrite ascii_compare_refl. eauto.
  - apply Ascii.compare_eq_iff in Hab. subst. now rewrite Hbc.
  - apply Ascii.compare_eq_iff in Hbc. subst. now rewrite Hab.
  - now rewrite (ascii_compare_lt_trans a b c).
Qed.

Lemma le_refl (s : string) : le s s.
Proof. unfold le, String.leb. now rewrite compare_refl. Qed.

Lemma le_trans (s1 s2 s3 : string) : le s1 s2 -> le s2 s3 -> le s1 s3.
Proof.
  unfold le, String.leb.
  destruct (String.compare s1 s2) eqn:H12; try discriminate; intros _.
  - apply String.compare_eq_iff in H12. now subst.
  - destruct (String.compare s2 s3) eqn:H23; try discriminate; intros _.
    + apply String.compare_eq_iff in H23. subst. now rewrite H12.
    + now rewrite (compare_lt_trans s1 s2 s3).
Qed.

Lemma ltb_le (s1 s2 : string) : String.ltb s1 s2 = true -> le s1 s2.
Proof.
  unfold le, String.ltb, String.leb. now destruct (String.compare s1 s2).
Qed.

Lemma not_ltb_le (s1 s2 : string) : String.ltb s1 s2 = false -> le s2 s1.
Proof.
  unfold le, String.ltb, String.leb. rewrite (String.compare_antisym s1 s2).
  now destruct (String.compare s2 s1).
Qed.

Lemma ltb_neq (s1 s2 : string) : String.ltb s1 s2 = true -> s1 <> s2.
Proof.
  unfold String.ltb. intros H ->. now rewrite compare_refl in H.
Qed.

Lemma le_antisym (s1 s2 : string) : le s1 s2 -> le s2 s1 -> s1 = s2.
Proof. apply String.leb_antisym. Qed.

(** *** [list.sort] *)

Lemma StronglySorted_app {B : Type} (R : B -> B -> Prop) (l1 l2 : list B) :
  StronglySorted R l1 -> StronglySorted R l2 ->
  (forall a b, In a l1 -> In b l2 -> R a b) ->
  StronglySorted R (l1 ++ l2).
Proof.
  intros H1 H2 H. induction H1 as [|a l1 Hl1 IH Ha]; simpl; [exact H2|].
  constructor.
  - apply IH. intros; apply H; simpl; auto.
  - apply Forall_app. split; [exact Ha|].
    apply Forall_forall. intros b Hb. apply H; simpl; auto.
Qed.

Lemma StronglySorted_rev {B : Type} (R : B -> B -> Prop) (l : list B) :
  StronglySorted R l -> StronglySorted (fun a b => R b a) (rev l).
Proof.
  induction 1 as [|a l Hl IH Ha]; simpl; [constructor|].
  apply StronglySorted_app; [exact IH | repeat constructor |].
  intros b c Hb [<-|[]]. apply in_rev in Hb.
  rewrite Forall_forall in Ha. now apply Ha.
Qed.

Section Sorting.
Context {A : Type}.
Implicit Types (x y : string * A) (l : list (string * A)).

Lemma insert_perm x l : Permutation (x :: l) (insert x l).
Proof.
  induction l as [|y l IH]; simpl; [apply Permutation_refl|].
  destruct (String.ltb (fst y) (fst x)); [|apply Permutation_refl].
  eapply Permutation_trans; [apply perm_swap|]. now apply perm_skip.
Qed.

Lemma stable_sort_perm l : Permutation l (stable_sort l).
Proof.
  induction l as [|x l IH]; simpl; [constructor|].
  eapply Permutation_trans; [apply perm_skip, IH | apply insert_perm].
Qed.

Lemma insert_sorted x l :
  StronglySorted key_le l -> StronglySorted key_le (insert x l).
Proof.
  induction 1 as [|y l Hl IH Hy]; simpl.
  - repeat constructor.
  - destruct (String.ltb (fst y) (fst x)) eqn:Hlt.
    + constructor; [exact IH|].
      apply (Permutation_Forall (insert_perm x l)).
      constructor; [now apply ltb_le | exact Hy].
    + apply not_ltb_le in Hlt.
      constructor; [now constructor|].
      constructor; [exact Hlt|].
      eapply Forall_impl; [|exact Hy].
      intros z Hz. exact (le_trans _ _ _ Hlt Hz).
Qed.

Lemma stable_sort_sorted l : StronglySorted key_le (stable_sort l).
Proof.
  induction l as [|x l IH]; simpl; [constructor | now apply insert_sorted].
Qed.

(** An insertion only passes items of a smaller key, so it does not
    change the order among the items of any one key. *)
Lemma insert_stable k x l :
  filter (has_key k) (insert x l) = filter (has_key k) (x :: l).
Proof.
  induction l as [|y l IH]; [reflexivity|].
  cbn [insert]. destruct (String.ltb (fst y) (fst x)) eqn:Hlt; [|reflexivity].
  apply ltb_neq in Hlt.
  cbn [filter] in *. rewrite IH. unfold has_key.
  destruct (String.eqb_spec (fst y) k) as [Hy|Hy];
    destruct (String.eqb_spec (fst x) k) as [Hx|Hx]; try reflexivity.
  congruence.
Qed.

Lemma stable_sort_stable k l :
  filter (has_key k) (stable_sort l) = filter (has_key k) l.
Proof.
  induction l as [|x l IH]; [reflexivity|].
  cbn [stable_sort fold_right]. fold (stable_sort l).
  rewrite insert_stable. cbn [filter]. now rewrite IH.
Qed.

(** What [l.sort(key=key, reverse=reverse)] does when no call of [key]
    raises: [k] gives the keys. *)
Variable key : A -> exn + string.
Variable k : A -> string.

Lemma keyed_decorate (l : list A) :
  Forall (fun a => key a = inr (k a)) l ->
  keyed key l = inr (map (decorate k) l).
Proof.
  induction 1 as [|a l Ha _ IH]; simpl; [reflexivity|].
  now rewrite Ha, IH.
Qed.

Lemma keyed_raises (l : list A) :
  Exists (fun a => exists e, key a = inl e) l ->
  exists e, keyed key l = inl e.
Proof.
  induction 1 as [a l [e Ha]|a l _ [e IH]]; simpl.
  - rewrite Ha. now exists e.
  - destruct (key a) as [e'|s]; [now exists e'|].
    rewrite IH. now exists e.
Qed.

Lemma decorated_decorate (l : list A) : Forall (decorated k) (map (decorate k) l).
Proof. induction l; simpl; constructor; auto. reflexivity. Qed.

Lemma map_snd_decorate (l : list A) : map snd (map (decorate k) l) = l.
Proof. induction l as [|a l IH]; simpl; [reflexivity | now rewrite IH]. Qed.

Lemma filter_map_snd (s : string) l :
  Forall (decorated k) l ->
  filter (fun a => (k a =? s)%string) (map snd l) = map snd (filter (has_key s) l).
Proof.
  induction 1 as [|x l Hx _ IH]; simpl; [reflexivity|].
  unfold has_key at 1. rewrite <- Hx.
  destruct (fst x =? s)%string; simpl; now rewrite IH.
Qed.

Lemma sorted_map_snd (R : string -> string -> Prop) l :
  Forall (decorated k) l ->
  StronglySorted (fun x y => R (fst x) (fst y)) l ->
  StronglySorted (fun a b => R (k a) (k b)) (map snd l).
Proof.
  intros Hd Hs. induction Hs as [|x l Hl IH Hx]; simpl; [constructor|].
  inversion Hd as [|? ? Hdx Hdl]; subst.
  constructor; [now apply IH|].
  apply Forall_map. rewrite Forall_forall in *.
  intros y Hy. rewrite <- Hdx, <- (Hdl y Hy). now apply Hx.
Qed.

Lemma sort_spec (reverse : bool) (l : list A) :
  Forall (fun a => key a = inr (k a)) l ->
  exists sorted,
    Py.sort key reverse l = inr sorted
    /\ Permutation l sorted
    /\ StronglySorted (in_order k reverse) sorted
    /\ forall s, filter (fun a => (k a =? s)%string) sorted
                 = filter (fun a => (k a =? s)%string) l.
Proof.
  intros Hkey. unfold Py.sort. rewrite (keyed_decorate l Hkey).
  eexists. split; [reflexivity|].
  pose proof (decorated_decorate l) as Hd.
  set (ks := map (decorate k) l) in *.
  assert (Hperm : Permutation ks
            (if reverse then rev (stable_sort (rev ks)) else stable_sort ks)).
  { destruct reverse; [|apply stable_sort_perm].
    eapply Permutation_trans; [apply Permutation_rev|].
    eapply Permutation_trans; [apply stable_sort_perm|].
    apply Permutation_rev. }
  pose proof (Permutation_Forall Hperm Hd) as Hd'.
  split; [|split].
  - rewrite <- (map_snd_decorate l) at 1. fold ks.
    now apply Permutation_map.
  - unfold in_order. destruct reverse.
    + apply (sorted_map_snd (fun s t => le t s)); [exact Hd'|].
      apply (StronglySorted_rev key_le), stable_sort_sorted.
    + apply (sorted_map_snd le); [exact Hd'|]. apply stable_sort_sorted.
  - intros s. rewrite (filter_map_snd s _ Hd').
    rewrite <- (map_snd_decorate l). fold ks.
    rewrite (filter_map_snd s ks Hd). f_equal.
    destruct reverse; [|apply stable_sort_stable].
    rewrite filter_rev, stable_sort_stable, filter_rev. apply rev_involutive.
Qed.
(** Whatever the keys are, a sort that ends without raising has permuted
    the list. *)
Lemma keyed_snd (l : list A) (ks : list (string * A)) :
  keyed key l = inr ks -> map snd ks = l.
Proof.
  revert ks. induction l as [|a l IH]; simpl; intros ks H.
  - now injection H as <-.
  - destruct (key a) as [e|s]; [discriminate|].
    destruct (keyed key l) as [e|ks']; [discriminate|].
    injection H as <-. simpl. now rewrite (IH ks').
Qed.

(** A sort looks at the key function on the items of the list only. *)
Lemma keyed_ext (key' : A -> exn + string) (l : list A) :
  Forall (fun a => key a = key' a) l -> keyed key l = keyed key' l.
Proof.
  induction 1 as [|a l Ha _ IH]; simpl; [reflexivity|].
  now rewrite Ha, IH.
Qed.

Lemma sort_ext (key' : A -> exn + string) (reverse : bool) (l : list A) :
  Forall (fun a => key a = key' a) l -> Py.sort key reverse l = Py.sort key' reverse l.
Proof. intros H. unfold Py.sort. now rewrite (keyed_ext key' l H). Qed.

Lemma sort_perm (reverse : bool) (l sorted : list A) :
  Py.sort key reverse l = inr sorted -> Permutation l sorted.
Proof.
  unfold Py.sort. destruct (keyed key l) as [e|ks] eqn:Hks; [discriminate|].
  intros H. injection H as <-. rewrite <- (keyed_snd l ks Hks).
  apply Permutation_map. destruct reverse; [|apply stable_sort_perm].
  eapply Permutation_trans; [apply Permutation_rev|].
  eapply Permutation_trans; [apply stable_sort_perm|].
  apply Permutation_rev.
Qed.
End Sorting.

(** *** [next], item assignment and [list.remove] *)

Section Scans.
Context {A : Type}.
Local Close Scope string_scope.
Variable test : A -> bool.
Implicit Types (x : A) (l before after : list A).

Lemma next_from_none i l : none_passes test l -> next_from i test l = None.
Proof.
  intros H. revert i. induction H as [|x l Hx _ IH]; intros i; simpl.
  - reflexivity.
  - rewrite Hx. apply IH.
Qed.

Lemma next_from_first i before x after :
  none_passes test before -> test x = true ->
  next_from i test (before ++ x :: after) = Some ((i + List.length before)%nat, x).
Proof.
  intros H Hx. revert i. induction H as [|y l Hy _ IH]; intros i; simpl.
  - rewrite Hx. now rewrite Nat.add_0_r.
  - rewrite Hy, IH. now rewrite Nat.add_succ_r.
Qed.

Lemma next_first before x after :
  none_passes test before -> test x = true ->
  next test (before ++ x :: after) = Some (List.length before, x).
Proof. intros. unfold next. now rewrite next_from_first. Qed.

(** Either no item passes the test or there is a first one that does. *)
Lemma first_or_none l :
  none_passes test l \/
  exists before x after,
    l = before ++ x :: after /\ none_passes test before /\ test x = true.
Proof.
  induction l as [|y l [IH | (before & x & after & -> & Hb & Hx)]].
  - left. constructor.
  - destruct (test y) eqn:Hy.
    + right. exists [], y, l. repeat split; [constructor | exact Hy].
    + left. now constructor.
  - right. destruct (test y) eqn:Hy.
    + exists [], y, (before ++ x :: after). repeat split; [constructor | exact Hy].
    + exists (y :: before), x, after. repeat split; [now constructor | exact Hx].
Qed.

Lemma mutate_first before x y after :
  mutate (List.length before) y (before ++ x :: after) = before ++ y :: after.
Proof. induction before as [|z l IH]; simpl; [reflexivity | now rewrite IH]. Qed.

Lemma remove_first before x after :
  none_passes test before -> test x = true ->
  remove test (before ++ x :: after) = inr (before ++ after).
Proof.
  intros H Hx. induction H as [|y l Hy _ IH]; simpl.
  - now rewrite Hx.
  - now rewrite Hy, IH.
Qed.
End Scans.

(** *** [same] *)

Lemma same_float_refl (f : spec_float) : same_float f f = true.
Proof.
  destruct f as [s|s| |s m e]; simpl; try reflexivity;
    rewrite ?Bool.eqb_reflx, ?Pos.eqb_refl, ?Z.eqb_refl; reflexivity.
Qed.

Lemma same_refl (v : json) : same v v = true.
Proof.
  revert v. fix same_refl 1. intros v.
  destruct v as [|b|n|f|s|items|members]; simpl.
  - reflexivity.
  - apply Bool.eqb_reflx.
  - apply Z.eqb_refl.
  - apply same_float_refl.
  - apply String.eqb_refl.
  - induction items as [|x items IH]; [reflexivity|].
    now rewrite (same_refl x), IH.
  - induction members as [|[key x] members IH]; [reflexivity|].
    now rewrite String.eqb_refl, (same_refl x), IH.
Qed.

End PyFacts.

(** ** What the handlers do *)

Module BlogFacts.
Import Py Blog Terms PyFacts.
Local Close Scope string_scope.

Section WithLower.
Variable lower : string -> string.
Hypothesis Hascii : lowers_ascii lower.
Hypothesis Hnonempty : keeps_nonempty lower.

(** *** Scans by id *)

Lemma absent_none_passes (id : Z) (l : list post) :
  absent id l -> none_passes (fun post => post_id post =? id) l.
Proof.
  unfold absent, none_passes. apply Forall_impl. intros p. apply Z.eqb_neq.
Qed.

Lemma none_passes_absent (id : Z) (l : list post) :
  none_passes (fun post => post_id post =? id) l -> absent id l.
Proof.
  unfold absent, none_passes. apply Forall_impl. intros p. apply Z.eqb_neq.
Qed.

(** A collection has no post of a given id, or a first one. *)
Lemma absent_or_first (id : Z) (POSTS : list post) :
  absent id POSTS \/
  exists before p after,
    POSTS = before ++ p :: after /\ absent id before /\ post_id p = id.
Proof.
  destruct (first_or_none (fun post => post_id post =? id) POSTS)
    as [H | (before & p & after & -> & Hb & Hp)].
  - left. now apply none_passes_absent.
  - right. exists before, p, after. repeat split.
    + now apply none_passes_absent.
    + now apply Z.eqb_eq.
Qed.

Lemma same_post_refl (p : post) : same_post p p = true.
Proof. unfold same_post. now rewrite Z.eqb_refl, !same_refl. Qed.

(** [POSTS.remove(p)] passes every post of another id. *)
Lemma same_post_other_id (p : post) (l : list post) :
  absent (post_id p) l -> none_passes (same_post p) l.
Proof.
  unfold absent, none_passes. apply Forall_impl. intros q Hq.
  unfold same_post. apply Z.eqb_neq in Hq. now rewrite Hq.
Qed.

(** *** [DELETE /api/posts/<int:id>] *)

Lemma delete_post_absent (id : Z) (POSTS : list post) :
  absent id POSTS ->
  delete_post id POSTS = (Response (Error "Post not found") 404, POSTS).
Proof.
  intros H. unfold delete_post, next.
  now rewrite (next_from_none _ 0 POSTS (absent_none_passes id POSTS H)).
Qed.

Lemma delete_post_first (id : Z) (before after : list post) (p : post) :
  absent id before -> post_id p = id ->
  delete_post id (before ++ p :: after)
  = (Response (Message ("Post with id " ++ str_of_int id
                        ++ " has been deleted successfully.")%string) 200,
     before ++ after).
Proof.
  intros Hb Hp. unfold delete_post.
  rewrite next_first; [|now apply absent_none_passes | now apply Z.eqb_eq].
  rewrite remove_first; [reflexivity| |apply same_post_refl].
  apply same_post_other_id. now rewrite Hp.
Qed.

(** C6.  Deleting an id that no post has answers 404 with the body
    [{"error": "Post not found"}] and leaves the collection as it is.
    Deleting an id that some post has removes the first post of that id,
    keeps all other posts in their order, and answers 200 with the message
    that names the id.  One of the two cases always applies. *)
Theorem delete_post_spec (id : Z) (POSTS : list post) :
  (absent id POSTS ->
   delete_post id POSTS = (Response (Error "Post not found") 404, POSTS))
  /\ (forall before p after,
        POSTS = before ++ p :: after -> absent id before -> post_id p = id ->
        delete_post id POSTS
        = (Response (Message ("Post with id " ++ str_of_int id
                              ++ " has been deleted successfully.")%string) 200,
           before ++ after))
  /\ (absent id POSTS \/
      exists before p after,
        POSTS = before ++ p :: after /\ absent id before /\ post_id p = id).
Proof.
  split; [apply delete_post_absent|]. split; [|apply absent_or_first].
  intros before p after -> Hb Hp. now apply delete_post_first.
Qed.

(** *** [POST /api/posts] *)

Lemma fold_left_max_greatest (l : list Z) (a : Z) :
  greatest (fold_left Z.max l a) (a :: l).
Proof.
  revert a. induction l as [|x l IH]; intros a; simpl.
  - split; [now left | repeat constructor; lia].
  - destruct (IH (Z.max a x)) as [Hin Hle].
    inversion Hle as [|? ? Hmax Hl]; subst. split.
    + destruct Hin as [Hin|Hin]; [|now right; right].
      destruct (Z.max_spec a x) as [[_ Hm]|[_ Hm]]; rewrite Hm in *;
        [right|]; now left.
    + repeat constructor; try lia. exact Hl.
Qed.

Lemma next_id_greatest (POSTS : list post) :
  POSTS <> [] ->
  exists m, greatest m (map post_id POSTS) /\ next_id POSTS = m + 1.
Proof.
  destruct POSTS as [|p rest]; [congruence|]. intros _.
  exists (fold_left Z.max (map post_id rest) (post_id p)).
  split; [apply fold_left_max_greatest | reflexivity].
Qed.

(** The id of a new post is above every id in the collection. *)
Lemma next_id_above (POSTS : list post) :
  Forall (fun p => post_id p < next_id POSTS) POSTS.
Proof.
  destruct POSTS as [|p rest]; [constructor|].
  destruct (next_id_greatest (p :: rest)) as (m & [_ Hle] & ->); [congruence|].
  rewrite Forall_map in Hle. eapply Forall_impl; [|exact Hle].
  simpl. intros; lia.
Qed.

Lemma create_post_missing (members : list (string * json)) (POSTS : list post) :
  supplied members "title" = false \/ supplied members "content" = false ->
  create_post (JObj members) POSTS
  = (Response (Error "Both 'title' and 'content' are required") 400, POSTS).
Proof.
  unfold supplied, create_post, get, get_default. cbn [bind ret].
  destruct (dict_get "title" members) as [t|]; cbn [truthy negb];
    [destruct (truthy t)|]; cbn [negb bind ret serve];
    try reflexivity.
  destruct (dict_get "content" members) as [c|]; cbn [truthy negb];
    [destruct (truthy c)|]; cbn [negb bind ret serve];
    try reflexivity.
  intros [H|H]; discriminate H.
Qed.

Lemma create_post_supplied (members : list (string * json)) (POSTS : list post)
      (title content : json) :
  dict_get "title" members = Some title -> truthy title = true ->
  dict_get "content" members = Some content -> truthy content = true ->
  create_post (JObj members) POSTS
  = (Response (Post (Build_post (next_id POSTS) title content)) 201,
     POSTS ++ [Build_post (next_id POSTS) title content]).
Proof.
  intros Ht Htt Hc Hct. unfold create_post, get, get_default, getitem.
  cbn [bind ret]. rewrite Ht, Hc. cbn [bind ret]. rewrite Htt, Hct.
  reflexivity.
Qed.

(** A body that is not an object has no [get]: the request raises. *)
Lemma create_post_not_object (data : json) (POSTS : list post) :
  (forall members, data <> JObj members) ->
  create_post data POSTS = (Raised AttributeError, POSTS).
Proof.
  intros H. destruct data as [| | | | | |members]; try reflexivity.
  now elim (H members).
Qed.

(** C7.  A create request whose body lacks ["title"] or ["content"], or has
    a falsy value for one of them, answers 400 with the body
    [{"error": "Both 'title' and 'content' are required"}]; the collection
    stays as it is, and so does the id that the next post will get. *)
Theorem create_post_rejects (members : list (string * json)) (POSTS : list post) :
  supplied members "title" = false \/ supplied members "content" = false ->
  create_post (JObj members) POSTS
  = (Response (Error "Both 'title' and 'content' are required") 400, POSTS)
  /\ next_id (snd (create_post (JObj members) POSTS)) = next_id POSTS.
Proof.
  intros H. rewrite (create_post_missing members POSTS H). now split.
Qed.

(** *** [GET /api/posts/search] *)

Lemma matches_well_typed (title_query content_query : string) (p : post) :
  well_typed p ->
  matches lower title_query content_query p = inr (keep lower title_query content_query p).
Proof.
  intros [Ht Hc]. unfold matches, keep.
  destruct (post_title p) as [| | | |t| |]; try discriminate Ht.
  destruct (post_content p) as [| | | |c| |]; try discriminate Hc.
  cbn [text lower_method bind ret].
  destruct (String.eqb title_query ""); cbn [negb orb andb bind ret].
  - destruct (String.eqb content_query ""); reflexivity.
  - destruct (contains title_query (lower t)); cbn [andb]; [|reflexivity].
    destruct (String.eqb content_query ""); reflexivity.
Qed.

Lemma matches_no_query (p : post) : matches lower "" "" p = inr true.
Proof. reflexivity. Qed.

Lemma comprehension_filter (test : post -> exn + bool) (f : post -> bool)
      (l : list post) :
  Forall (fun p => test p = inr (f p)) l ->
  comprehension test l = inr (filter f l).
Proof.
  induction 1 as [|p l Hp _ IH]; simpl; [reflexivity|].
  rewrite Hp, IH. cbn [bind ret]. reflexivity.
Qed.

Lemma filter_all (l : list post) : filter (fun _ => true) l = l.
Proof. induction l as [|p l IH]; simpl; [reflexivity | now rewrite IH]. Qed.

Lemma keep_hit (title content : string) (p : post) :
  keep lower (lower title) (lower content) p = true <-> hit lower title content p.
Proof.
  unfold keep, hit.
  rewrite andb_true_iff, !orb_true_iff,
    !(eqb_empty_lower lower Hascii Hnonempty), !String.eqb_eq, !contains_iff.
  reflexivity.
Qed.

Lemma search_posts_well_typed (title content : option string) (POSTS : list post) :
  Forall well_typed POSTS ->
  search_posts lower title content POSTS
  = (Response
       (Posts (filter (keep lower (lower (or_default title ""))
                            (lower (or_default content ""))) POSTS)) 200,
     POSTS).
Proof.
  intros H. unfold search_posts.
  rewrite (comprehension_filter _ (keep lower (lower (or_default title ""))
                                        (lower (or_default content "")))).
  - reflexivity.
  - eapply Forall_impl; [|exact H]. intros p. apply matches_well_typed.
Qed.

Lemma search_posts_no_query (title content : option string) (POSTS : list post) :
  or_default title "" = EmptyString -> or_default content "" = EmptyString ->
  search_posts lower title content POSTS = (Response (Posts POSTS) 200, POSTS).
Proof.
  intros Ht Hc. unfold search_posts.
  rewrite Ht, Hc, (lower_empty_string lower Hascii).
  rewrite (comprehension_filter _ (fun _ => true)).
  - now rewrite filter_all.
  - apply Forall_forall. intros p _. apply matches_no_query.
Qed.

(** A search never changes the collection, whatever it answers. *)
Lemma search_posts_state (title content : option string) (POSTS : list post) :
  snd (search_posts lower title content POSTS) = POSTS.
Proof.
  unfold search_posts.
  now destruct (comprehension _ POSTS).
Qed.

(** C5.  On a collection of posts with string titles and contents, a search
    answers 200 with the posts that match both queries, in the order of the
    collection: a query matches when it is empty or occurs, in lower case,
    in the field in lower case.  An absent query counts as empty.  With both
    queries empty the answer is the whole collection, whatever the posts
    are.  The collection is not changed.  Lower case is that of [str.lower],
    of which the proof uses what it does on ASCII text and that it empties
    no string. *)
Theorem search_posts_spec (title content : option string) (POSTS : list post) :
  let kept := keep lower (lower (or_default title ""))
                         (lower (or_default content "")) in
  (forall p, kept p = true
             <-> hit lower (or_default title "") (or_default content "") p)
  /\ (Forall well_typed POSTS ->
      search_posts lower title content POSTS
      = (Response (Posts (filter kept POSTS)) 200, POSTS))
  /\ (or_default title "" = EmptyString -> or_default content "" = EmptyString ->
      search_posts lower title content POSTS = (Response (Posts POSTS) 200, POSTS)).
Proof.
  split; [|split].
  - intros p. apply keep_hit.
  - apply search_posts_well_typed.
  - apply search_posts_no_query.
Qed.

(** *** [GET /api/posts] *)

(** The key function of the sort on a post whose field is a string. *)
Lemma key_sort_key (sort_by : string) (p : post) :
  valid_sort sort_by -> is_str (field sort_by p) = true ->
  (v <- post_getitem p (Some sort_by);; lower_method lower v)
  = inr (sort_key lower sort_by p).
Proof.
  unfold sort_key, field, post_getitem.
  intros [-> | ->]; cbn [String.eqb Ascii.eqb Bool.eqb bind ret]; intros H.
  - destruct (post_title p); try discriminate H. reflexivity.
  - destruct (post_content p); try discriminate H. reflexivity.
Qed.

Lemma get_posts_unfold (sort_by direction : option string) (POSTS : list post) :
  get_posts lower sort_by direction POSTS
  = if truthy_arg sort_by && negb (arg_in sort_by ["title"; "content"]%string)
    then (Response (Error "Invalid sort field. Must be 'title' or 'content'.") 400,
          POSTS)
    else if negb (mem (direction_of lower direction) ["asc"; "desc"]%string)
    then (Response (Error "Invalid direction. Must be 'asc' or 'desc'.") 400, POSTS)
    else if truthy_arg sort_by
    then serve POSTS
           (sorted <- Py.sort (fun post => v <- post_getitem post sort_by;;
                                           lower_method lower v)
                              (descending lower direction) POSTS;;
            ret (Response (Posts sorted) 200, sorted))
    else (Response (Posts POSTS) 200, POSTS).
Proof.
  unfold get_posts, descending, direction_of.
  now destruct (String.eqb (lower (or_default direction "asc")) "desc").
Qed.

Lemma valid_direction_mem (direction : option string) :
  valid_direction lower direction <->
  mem (direction_of lower direction) ["asc"; "desc"]%string = true.
Proof.
  unfold valid_direction, mem. cbn [existsb].
  rewrite !orb_true_iff, !String.eqb_eq. intuition discriminate.
Qed.

Lemma valid_sort_mem (sort_by : string) :
  valid_sort sort_by <-> mem sort_by ["title"; "content"]%string = true.
Proof.
  unfold valid_sort, mem. cbn [existsb].
  rewrite !orb_true_iff, !String.eqb_eq. intuition discriminate.
Qed.


(** Without a sort field, or with an empty one, the collection is
    answered as it is. *)
Lemma get_posts_plain (sort_by direction : option string) (POSTS : list post) :
  truthy_arg sort_by = false -> valid_direction lower direction ->
  get_posts lower sort_by direction POSTS = (Response (Posts POSTS) 200, POSTS).
Proof.
  intros Hs Hd. rewrite get_posts_unfold, Hs.
  apply valid_direction_mem in Hd. now rewrite Hd.
Qed.

Lemma get_posts_sorted (sort_by : string) (direction : option string)
      (POSTS : list post) :
  valid_sort sort_by -> valid_direction lower direction ->
  Forall (fun p => is_str (field sort_by p) = true) POSTS ->
  exists sorted,
    get_posts lower (Some sort_by) direction POSTS = (Response (Posts sorted) 200, sorted)
    /\ Permutation POSTS sorted
    /\ StronglySorted (in_order (sort_key lower sort_by) (descending lower direction)) sorted
    /\ forall s, filter (fun p => String.eqb (sort_key lower sort_by p) s) sorted
                 = filter (fun p => String.eqb (sort_key lower sort_by p) s) POSTS.
Proof.
  intros Hs Hd Htyped.
  destruct (sort_spec (fun post => v <- post_getitem post (Some sort_by);;
                                   lower_method lower v)
                      (sort_key lower sort_by) (descending lower direction) POSTS)
    as (sorted & Hsort & Hrest).
  { eapply Forall_impl; [|exact Htyped]. intros p. now apply key_sort_key. }
  exists sorted. split; [|exact Hrest].
  rewrite get_posts_unfold. cbn [truthy_arg arg_in].
  apply valid_direction_mem in Hd. rewrite Hd.
  pose proof Hs as Hmem. apply valid_sort_mem in Hmem. rewrite Hmem.
  assert (String.eqb sort_by "" = false) as ->
      by (destruct Hs as [-> | ->]; reflexivity).
  cbn [negb andb]. rewrite Hsort. reflexivity.
Qed.

(** A post whose sort field is not a string makes the sort raise; the
    collection stays as it is. *)
Lemma get_posts_raises (sort_by : string) (direction : option string)
      (POSTS : list post) :
  valid_sort sort_by -> valid_direction lower direction ->
  Exists (fun p => is_str (field sort_by p) = false) POSTS ->
  exists e, get_posts lower (Some sort_by) direction POSTS = (Raised e, POSTS).
Proof.
  intros Hs Hd Hbad.
  destruct (keyed_raises (fun post => v <- post_getitem post (Some sort_by);;
                                      lower_method lower v) POSTS) as [e He].
  { eapply Exists_impl; [|exact Hbad]. intros p Hp.
    exists AttributeError. revert Hp. unfold field, post_getitem.
    destruct Hs as [-> | ->]; cbn [String.eqb Ascii.eqb Bool.eqb bind ret].
    - now destruct (post_title p).
    - now destruct (post_content p). }
  exists e. rewrite get_posts_unfold. cbn [truthy_arg arg_in].
  apply valid_direction_mem in Hd. rewrite Hd.
  pose proof Hs as Hmem. apply valid_sort_mem in Hmem. rewrite Hmem.
  assert (String.eqb sort_by "" = false) as ->
      by (destruct Hs as [-> | ->]; reflexivity).
  cbn [negb andb]. unfold Py.sort. now rewrite He.
Qed.

(** What a list request can answer, whatever the posts are. *)
Lemma get_posts_cases (sort_by direction : option string) (POSTS : list post) :
  (exists msg, get_posts lower sort_by direction POSTS = (Response (Error msg) 400, POSTS))
  \/ (exists e, get_posts lower sort_by direction POSTS = (Raised e, POSTS))
  \/ (exists sorted,
        get_posts lower sort_by direction POSTS = (Response (Posts sorted) 200, sorted)
        /\ Permutation POSTS sorted).
Proof.
  rewrite get_posts_unfold.
  destruct (truthy_arg sort_by).
  - destruct (negb (arg_in sort_by ["title"; "content"]%string));
      cbn [andb]; [left; eexists; reflexivity|].
    destruct (negb (mem (direction_of lower direction) ["asc"; "desc"]%string));
      [left; eexists; reflexivity|].
    right. destruct (Py.sort _ (descending lower direction) POSTS) as [e|sorted] eqn:H.
    + left. now exists e.
    + right. exists sorted. split; [reflexivity|].
      eapply sort_perm. exact H.
  - cbn [andb].
    destruct (negb (mem (direction_of lower direction) ["asc"; "desc"]%string));
      [left; eexists; reflexivity|].
    right. right. exists POSTS. split; [reflexivity | apply Permutation_refl].
Qed.

(** The default direction is valid. *)
Lemma valid_direction_default : valid_direction lower None.
Proof.
  left. unfold direction_of. cbn [or_default]. now rewrite Hascii.
Qed.

Lemma lower_method_ascii (v : json) :
  is_ascii (text v) = true -> lower_method lower v = lower_method ascii_lower v.
Proof.
  destruct v; try reflexivity. cbn [text lower_method]. intros H.
  now rewrite Hascii.
Qed.

(** On a direction and on posts of ASCII text, [lower] can be taken to be
    [ascii_lower]. *)
Lemma get_posts_ascii (sort_by direction : option string) (POSTS : list post) :
  is_ascii (or_default direction "asc") = true ->
  forallb ascii_post POSTS = true ->
  get_posts lower sort_by direction POSTS
  = get_posts ascii_lower sort_by direction POSTS.
Proof.
  intros Hd Hposts. unfold get_posts. rewrite (Hascii _ Hd).
  rewrite (sort_ext (fun post => v <- post_getitem post sort_by;;
                                 lower_method lower v)
                    (fun post => v <- post_getitem post sort_by;;
                                 lower_method ascii_lower v)); [reflexivity|].
  rewrite forallb_forall in Hposts. apply Forall_forall. intros p Hp.
  specialize (Hposts p Hp). unfold ascii_post in Hposts.
  apply andb_true_iff in Hposts. destruct Hposts as [Ht Hc].
  unfold post_getitem. destruct sort_by as [k|]; [|reflexivity].
  destruct (String.eqb k "id"); [reflexivity|].
  destruct (String.eqb k "title"); cbn [bind ret];
    [now apply lower_method_ascii|].
  destruct (String.eqb k "content"); cbn [bind ret];
    [now apply lower_method_ascii | reflexivity].
Qed.

(** C3.  For a sort field among ["title"] and ["content"] and a direction
    that is ["asc"] or ["desc"] once defaulted to ["asc"] and put in lower
    case: on a collection whose posts have a string in the sort field, a list
    request answers 200 with a permutation of the collection that is ordered
    by the field in lower case, ascending, or descending for ["desc"]; that
    list is the collection afterwards, so a later list request answers it
    again.  On the seed collection, a sort by title in direction ["desc"]
    answers the third, the second and the first post.  Without a sort field
    the collection is answered as it is and stays as it is.  Lower case is
    that of [str.lower], of which the proof uses what it does on ASCII
    text. *)
Theorem get_posts_spec (sort_by : string) (direction : option string)
        (POSTS : list post) :
  valid_sort sort_by -> valid_direction lower direction ->
  (Forall (fun p => is_str (field sort_by p) = true) POSTS ->
   exists sorted,
     get_posts lower (Some sort_by) direction POSTS
     = (Response (Posts sorted) 200, sorted)
     /\ Permutation POSTS sorted
     /\ StronglySorted (in_order (sort_key lower sort_by) (descending lower direction))
                       sorted
     /\ get_posts lower None None sorted = (Response (Posts sorted) 200, sorted))
  /\ get_posts lower (Some "title"%string) (Some "desc"%string) POSTS0
     = (Response (Posts [third_post; second_post; first_post]) 200,
        [third_post; second_post; first_post])
  /\ get_posts lower None direction POSTS = (Response (Posts POSTS) 200, POSTS).
Proof.
  intros Hs Hd. split; [|split].
  - intros Htyped.
    destruct (get_posts_sorted sort_by direction POSTS Hs Hd Htyped)
      as (sorted & Hget & Hperm & Hsorted & _).
    exists sorted. repeat split; try assumption.
    apply get_posts_plain; [reflexivity | apply valid_direction_default].
  - rewrite get_posts_ascii by reflexivity. reflexivity.
  - now apply get_posts_plain.
Qed.

(** A filter that keeps [x] between [a] and [b] keeps it from that place. *)
Lemma filter_eq_app (f : post -> bool) (l a b : list post) (x : post) :
  filter f l = a ++ x :: b ->
  exists l1 l2, l = l1 ++ x :: l2 /\ filter f l1 = a /\ filter f l2 = b.
Proof.
  revert a. induction l as [|y l IH]; intros a H; simpl in H.
  - destruct a; discriminate H.
  - destruct (f y) eqn:Hy.
    + destruct a as [|z a]; simpl in H; injection H as -> H.
      * exists [], l. simpl. auto.
      * destruct (IH a H) as (l1 & l2 & -> & H1 & H2).
        exists (z :: l1), l2. simpl. rewrite Hy, H1. auto.
    + destruct (IH a H) as (l1 & l2 & -> & H1 & H2).
      exists (y :: l1), l2. simpl. rewrite Hy. auto.
Qed.

(** C10.  The sort of a list request is stable, in either direction: the
    posts of any one key are in the sorted list in the order they had in
    the collection; so two posts of equal keys, one before the other in the
    collection, are found in that order in the sorted list.  The key of a
    post is its sort field put in lower case by [str.lower], whatever that
    function does. *)
Theorem get_posts_stable (sort_by : string) (direction : option string)
        (POSTS : list post) :
  valid_sort sort_by -> valid_direction lower direction ->
  Forall (fun p => is_str (field sort_by p) = true) POSTS ->
  exists sorted,
    get_posts lower (Some sort_by) direction POSTS = (Response (Posts sorted) 200, sorted)
    /\ (forall s, filter (fun p => String.eqb (sort_key lower sort_by p) s) sorted
                  = filter (fun p => String.eqb (sort_key lower sort_by p) s) POSTS)
    /\ (forall before p between q after,
          POSTS = before ++ p :: between ++ q :: after ->
          sort_key lower sort_by p = sort_key lower sort_by q ->
          exists before' between' after',
            sorted = before' ++ p :: between' ++ q :: after').
Proof.
  intros Hs Hd Htyped.
  destruct (get_posts_sorted sort_by direction POSTS Hs Hd Htyped)
    as (sorted & Hget & _ & _ & Hstable).
  exists sorted. split; [exact Hget|]. split; [exact Hstable|].
  intros before p between q after -> Hkey.
  specialize (Hstable (sort_key lower sort_by p)).
  rewrite filter_app in Hstable. cbn [filter] in Hstable.
  rewrite String.eqb_refl, filter_app in Hstable. cbn [filter] in Hstable.
  rewrite <- Hkey, String.eqb_refl in Hstable.
  apply filter_eq_app in Hstable. destruct Hstable as (l1 & l2 & -> & _ & H2).
  apply filter_eq_app in H2. destruct H2 as (l3 & l4 & -> & _ & _).
  now exists l1, l3, l4.
Qed.

(** C8, as the code has it.  A sort field that is not empty and is neither
    ["title"] nor ["content"] answers 400 with the body [{"error": "Invalid
    sort field. Must be 'title' or 'content'."}], whatever the direction is,
    and leaves the collection as it is.  An empty sort field is handled as
    an absent one. *)
Theorem get_posts_rejects_sort (sort_by : string) (direction : option string)
        (POSTS : list post) :
  sort_by <> EmptyString -> ~ valid_sort sort_by ->
  get_posts lower (Some sort_by) direction POSTS
  = (Response (Error "Invalid sort field. Must be 'title' or 'content'.") 400, POSTS)
  /\ get_posts lower (Some EmptyString) direction POSTS
     = get_posts lower None direction POSTS.
Proof.
  intros Hne Hs. split.
  - rewrite get_posts_unfold. cbn [truthy_arg arg_in].
    apply String.eqb_neq in Hne. rewrite Hne.
    rewrite valid_sort_mem in Hs. apply not_true_is_false in Hs. now rewrite Hs.
  - now rewrite !get_posts_unfold.
Qed.


(** *** [PUT /api/posts/<int:id>] *)

Lemma update_post_absent (id : Z) (data : json) (POSTS : list post) :
  absent id POSTS ->
  update_post id data POSTS = (Response (Error "Post not found") 404, POSTS).
Proof.
  intros H. unfold update_post, next.
  now rewrite (next_from_none _ 0 POSTS (absent_none_passes id POSTS H)).
Qed.

Lemma update_post_first (id : Z) (members : list (string * json))
      (before after : list post) (p : post) :
  absent id before -> post_id p = id ->
  update_post id (JObj members) (before ++ p :: after)
  = (Response (Post (updated members p)) 200, before ++ updated members p :: after).
Proof.
  intros Hb Hp. unfold update_post.
  rewrite next_first; [|now apply absent_none_passes | now apply Z.eqb_eq].
  cbn [get_default bind ret serve]. now rewrite mutate_first.
Qed.

(** A body that is not an object raises before anything is assigned. *)
Lemma update_post_state (id : Z) (data : json) (POSTS : list post) :
  map post_id (snd (update_post id data POSTS)) = map post_id POSTS.
Proof.
  destruct (absent_or_first id POSTS) as [H | (before & p & after & -> & Hb & Hp)].
  - now rewrite update_post_absent.
  - destruct data as [| | | | | |members];
      try (unfold update_post;
           rewrite next_first;
           [reflexivity | now apply absent_none_passes | now apply Z.eqb_eq]).
    rewrite update_post_first by assumption.
    cbn [snd]. now rewrite !map_app.
Qed.

(** C4.  Updating an id that no post has answers 404 with the body
    [{"error": "Post not found"}] and leaves the collection as it is.
    Updating an id that some post has, with an object as the body, changes
    the first post of that id at its place: the title becomes the value of
    the body when the body has the key ["title"], whatever that value is,
    and stays as it was otherwise; the same holds of the content; the id and
    all other posts stay as they were; the answer is 200 with the post as it
    is now.  One of the two cases always applies. *)
Theorem update_post_spec (id : Z) (data : json) (POSTS : list post) :
  (absent id POSTS ->
   update_post id data POSTS = (Response (Error "Post not found") 404, POSTS))
  /\ (forall members before p after,
        data = JObj members ->
        POSTS = before ++ p :: after -> absent id before -> post_id p = id ->
        exists p',
          update_post id data POSTS
          = (Response (Post p') 200, before ++ p' :: after)
          /\ post_id p' = id
          /\ (forall v, dict_get "title" members = Some v -> post_title p' = v)
          /\ (dict_get "title" members = None -> post_title p' = post_title p)
          /\ (forall v, dict_get "content" members = Some v -> post_content p' = v)
          /\ (dict_get "content" members = None -> post_content p' = post_content p))
  /\ (absent id POSTS \/
      exists before p after,
        POSTS = before ++ p :: after /\ absent id before /\ post_id p = id).
Proof.
  split; [apply update_post_absent|]. split; [|apply absent_or_first].
  intros members before p after -> -> Hb Hp.
  exists (updated members p). split; [now apply update_post_first|].
  unfold updated, replaced. cbn [post_id post_title post_content].
  repeat split; try assumption; intros; now rewrite H.
Qed.

(** *** The new post of a create request *)

(** C1.  A create request whose body has truthy values for ["title"] and
    ["content"] answers 201 with the new post, and the collection is the old
    one with the new post at its end.  The id of the new post is 1 when the
    collection was empty and one more than the greatest id otherwise.  After
    that, a list request without parameters and a search without queries
    answer the collection with the new post in it; every list request that
    answers posts has the new post among them; and when the new title and
    content are strings, a search for them finds the new post among posts
    of the data model. *)
Theorem create_post_spec (members : list (string * json)) (POSTS : list post)
        (title content : json) :
  dict_get "title" members = Some title -> truthy title = true ->
  dict_get "content" members = Some content -> truthy content = true ->
  let new_post := Build_post (next_id POSTS) title content in
  create_post (JObj members) POSTS
  = (Response (Post new_post) 201, POSTS ++ [new_post])
  /\ (POSTS = [] -> post_id new_post = 1)
  /\ (POSTS <> [] ->
      exists m, greatest m (map post_id POSTS) /\ post_id new_post = m + 1)
  /\ get_posts lower None None (POSTS ++ [new_post])
     = (Response (Posts (POSTS ++ [new_post])) 200, POSTS ++ [new_post])
  /\ search_posts lower None None (POSTS ++ [new_post])
     = (Response (Posts (POSTS ++ [new_post])) 200, POSTS ++ [new_post])
  /\ (forall sort direction listed after,
        get_posts lower sort direction (POSTS ++ [new_post])
        = (Response (Posts listed) 200, after) ->
        In new_post listed)
  /\ (forall t c,
        title = JStr t -> content = JStr c -> Forall well_typed POSTS ->
        exists found,
          search_posts lower (Some t) (Some c) (POSTS ++ [new_post])
          = (Response (Posts found) 200, POSTS ++ [new_post])
          /\ In new_post found).
Proof.
  intros Ht Htt Hc Hct new_post.
  split; [now apply create_post_supplied|].
  split; [now intros ->|].
  split; [apply next_id_greatest|].
  split; [apply get_posts_plain; [reflexivity | apply valid_direction_default]|].
  split; [now apply search_posts_no_query|].
  split.
  - intros sort direction listed after H.
    destruct (get_posts_cases sort direction (POSTS ++ [new_post]))
      as [[msg H'] | [[e H'] | (sorted & H' & Hperm)]];
      rewrite H' in H; try discriminate H.
    injection H as <- _. eapply Permutation_in; [exact Hperm|].
    apply in_or_app. right. now left.
  - intros t c -> -> Htyped. eexists. split.
    + apply search_posts_well_typed. apply Forall_app. split; [exact Htyped|].
      repeat constructor.
    + apply filter_In. split; [apply in_or_app; right; now left|].
      unfold keep. cbn [or_default new_post post_title post_content text].
      now rewrite !contains_refl, !orb_true_r.
Qed.

(** *** Distinct ids *)

Lemma create_post_state (data : json) (POSTS : list post) :
  snd (create_post data POSTS) = POSTS
  \/ exists title content,
       snd (create_post data POSTS)
       = POSTS ++ [Build_post (next_id POSTS) title content].
Proof.
  destruct data as [| | | | | |members]; try (left; reflexivity).
  destruct (supplied members "title") eqn:Ht.
  - destruct (supplied members "content") eqn:Hc.
    + right. unfold supplied in Ht, Hc.
      destruct (dict_get "title" members) as [t|] eqn:Ht'; [|discriminate].
      destruct (dict_get "content" members) as [c|] eqn:Hc'; [|discriminate].
      exists t, c. now rewrite (create_post_supplied members POSTS t c).
    + left. rewrite create_post_missing; auto.
  - left. rewrite create_post_missing; auto.
Qed.

Lemma unique_ids_create (POSTS : list post) (title content : json) :
  unique_ids POSTS ->
  unique_ids (POSTS ++ [Build_post (next_id POSTS) title content]).
Proof.
  unfold unique_ids. intros H. rewrite map_app. cbn [map post_id].
  eapply Permutation_NoDup; [apply Permutation_cons_append|].
  constructor; [|exact H].
  intros Hin. apply in_map_iff in Hin. destruct Hin as (p & Hp & Hin).
  pose proof (next_id_above POSTS) as Hlt. rewrite Forall_forall in Hlt.
  specialize (Hlt p Hin). lia.
Qed.

Lemma unique_ids_delete (id : Z) (POSTS : list post) :
  unique_ids POSTS -> unique_ids (snd (delete_post id POSTS)).
Proof.
  unfold unique_ids.
  destruct (absent_or_first id POSTS) as [H | (before & p & after & -> & Hb & Hp)].
  - now rewrite delete_post_absent.
  - rewrite delete_post_first by assumption. cbn [snd].
    rewrite !map_app. cbn [map]. apply NoDup_remove_1.
Qed.

(** *** Text that differs in case only

    Two titles that [str.lower] makes equal, as ["École"] and ["école"]:
    a sort by title leaves two such posts in their order, in either
    direction, and a search for the one title finds the post of the
    other. *)

Lemma filter_whole (f : post -> bool) (l : list post) :
  List.length (filter f l) = List.length l -> filter f l = l.
Proof.
  induction l as [|p l IH]; [reflexivity|]. cbn [filter].
  destruct (f p); cbn [List.length]; intros H.
  - f_equal. apply IH. now injection H.
  - pose proof (filter_length_le f l). lia.
Qed.

Lemma equal_keys_keep_order (a b : post) (direction : option string) :
  valid_direction lower direction ->
  is_str (post_title a) = true -> is_str (post_title b) = true ->
  sort_key lower "title" a = sort_key lower "title" b ->
  get_posts lower (Some "title"%string) direction [a; b]
  = (Response (Posts [a; b]) 200, [a; b]).
Proof.
  intros Hd Ha Hb Hkey.
  destruct (get_posts_sorted "title" direction [a; b])
    as (sorted & -> & Hperm & _ & Hstable);
    [now left | exact Hd | now repeat constructor|].
  specialize (Hstable (sort_key lower "title" a)). cbn [filter] in Hstable.
  rewrite <- Hkey, String.eqb_refl in Hstable.
  rewrite <- Hstable, filter_whole; [reflexivity|].
  rewrite Hstable. symmetry. now apply Permutation_length.
Qed.

Lemma found_in_other_case (p : post) (title query : string) :
  post_title p = JStr title -> is_str (post_content p) = true ->
  lower query = lower title ->
  search_posts lower (Some query) None [p] = (Response (Posts [p]) 200, [p]).
Proof.
  intros Ht Hc Hq.
  rewrite search_posts_well_typed
    by (repeat constructor; [now rewrite Ht | exact Hc]).
  cbn [or_default filter]. unfold keep.
  rewrite Ht, Hq, (lower_empty_string lower Hascii). cbn [text].
  now rewrite contains_refl, orb_true_r.
Qed.

(** C2.  Distinct ids are kept by every request: whatever the request is
    and whatever it answers, a collection with pairwise distinct ids is
    followed by a collection with pairwise distinct ids. *)
Theorem unique_ids_invariant (r : request) (POSTS : list post) :
  unique_ids POSTS -> unique_ids (snd (handle lower r POSTS)).
Proof.
  intros H. destruct r as [sort direction|data|id|id data|title content];
    cbn [handle].
  - destruct (get_posts_cases sort direction POSTS)
      as [[msg ->] | [[e ->] | (sorted & -> & Hperm)]]; try exact H.
    cbn [snd]. unfold unique_ids in *.
    eapply Permutation_NoDup; [|exact H]. now apply Permutation_map.
  - destruct (create_post_state data POSTS) as [-> | (t & c & ->)]; [exact H|].
    now apply unique_ids_create.
  - now apply unique_ids_delete.
  - unfold unique_ids. now rewrite update_post_state.
  - now rewrite search_posts_state.
Qed.

End WithLower.

(** *** Instances at [ascii_lower]

    The instances and the counterexamples take [ascii_lower] for [lower]:
    their parameters and posts are text of ASCII characters, on which
    [str.lower] is [ascii_lower]. *)

(** The seed collection: deleting post 2 keeps posts 1 and 3; deleting
    post 4 changes nothing. *)
Lemma delete_post_spec_witness :
  delete_post 2 POSTS0
  = (Response (Message "Post with id 2 has been deleted successfully.") 200,
     [first_post; third_post])
  /\ delete_post 4 POSTS0 = (Response (Error "Post not found") 404, POSTS0).
Proof.
  destruct (delete_post_spec 2 POSTS0) as (_ & Hfound & _).
  destruct (delete_post_spec 4 POSTS0) as (Habsent & _ & _).
  split.
  - apply (Hfound [first_post] second_post [third_post]).
    + reflexivity.
    + repeat constructor. simpl. lia.
    + reflexivity.
  - apply Habsent. repeat constructor; simpl; lia.
Defined.

(** A body with an empty title on the seed collection. *)
Lemma create_post_rejects_witness :
  create_post (JObj [("title", JStr ""); ("content", JStr "Y")]%string) POSTS0
  = (Response (Error "Both 'title' and 'content' are required") 400, POSTS0)
  /\ next_id (snd (create_post
                    (JObj [("title", JStr ""); ("content", JStr "Y")]%string)
                    POSTS0)) = next_id POSTS0.
Proof.
  apply (create_post_rejects [("title", JStr ""); ("content", JStr "Y")]%string
                             POSTS0).
  left. reflexivity.
Defined.

(** A query on a post whose title is not a string raises. *)
Lemma search_posts_raises :
  search_posts ascii_lower (Some "x"%string) None [Build_post 1 (JInt 5) (JStr "c")]
  = (Raised AttributeError, [Build_post 1 (JInt 5) (JStr "c")]).
Proof. reflexivity. Qed.

(** The seed collection: the title query ["SEC"] finds the second post. *)
Lemma search_posts_spec_witness :
  search_posts ascii_lower (Some "SEC"%string) None POSTS0
  = (Response (Posts [second_post]) 200, POSTS0)
  /\ search_posts ascii_lower None (Some EmptyString) POSTS0
     = (Response (Posts POSTS0) 200, POSTS0).
Proof.
  destruct (search_posts_spec ascii_lower ascii_lower_lowers_ascii
              ascii_lower_keeps_nonempty (Some "SEC"%string) None POSTS0)
    as (_ & Htyped & _).
  destruct (search_posts_spec ascii_lower ascii_lower_lowers_ascii
              ascii_lower_keeps_nonempty None (Some EmptyString) POSTS0)
    as (_ & _ & Hall).
  split.
  - rewrite Htyped; [reflexivity|].
    repeat constructor.
  - apply Hall; reflexivity.
Defined.

(** The seed collection sorted by content, the direction written ["Desc"]. *)
Lemma get_posts_spec_witness :
  exists sorted,
    get_posts ascii_lower (Some "content"%string) (Some "Desc"%string) POSTS0
    = (Response (Posts sorted) 200, sorted)
    /\ Permutation POSTS0 sorted
    /\ StronglySorted (in_order (sort_key ascii_lower "content") true) sorted
    /\ get_posts ascii_lower None None sorted = (Response (Posts sorted) 200, sorted).
Proof.
  destruct (get_posts_spec ascii_lower ascii_lower_lowers_ascii
              "content" (Some "Desc"%string) POSTS0) as (H & _ & _).
  - right. reflexivity.
  - right. reflexivity.
  - apply H. repeat constructor.
Defined.

(** Two posts with the titles ["a"] and ["A"] behind a post titled ["b"]:
    both directions keep ["a"] in front of ["A"]. *)
Lemma get_posts_stable_witness :
  let a := Build_post 1 (JStr "a") (JStr "x") in
  let A := Build_post 2 (JStr "A") (JStr "y") in
  let b := Build_post 3 (JStr "b") (JStr "z") in
  get_posts ascii_lower (Some "title"%string) (Some "desc"%string) [b; a; A]
  = (Response (Posts [b; a; A]) 200, [b; a; A])
  /\ get_posts ascii_lower (Some "title"%string) None [b; a; A]
     = (Response (Posts [a; A; b]) 200, [a; A; b])
  /\ exists sorted,
       get_posts ascii_lower (Some "title"%string) (Some "desc"%string) [b; a; A]
       = (Response (Posts sorted) 200, sorted)
       /\ exists before' between' after',
            sorted = before' ++ a :: between' ++ A :: after'.
Proof.
  intros a A b. split; [reflexivity|]. split; [reflexivity|].
  destruct (get_posts_stable ascii_lower "title" (Some "desc"%string) [b; a; A])
    as (sorted & Hget & _ & Hpair).
  - left. reflexivity.
  - right. reflexivity.
  - repeat constructor.
  - exists sorted. split; [exact Hget|].
    apply (Hpair [b] a [] A []); reflexivity.
Defined.

Lemma get_posts_rejects_sort_witness :
  get_posts ascii_lower (Some "id"%string) (Some "desc"%string) POSTS0
  = (Response (Error "Invalid sort field. Must be 'title' or 'content'.") 400, POSTS0)
  /\ get_posts ascii_lower (Some EmptyString) (Some "desc"%string) POSTS0
     = get_posts ascii_lower None (Some "desc"%string) POSTS0.
Proof.
  apply (get_posts_rejects_sort ascii_lower "id" (Some "desc"%string) POSTS0).
  - discriminate.
  - intros [H|H]; discriminate H.
Defined.

(** C8 as the spec has it fails for the request [?sort=]: the sort field is
    present and is not an allowed one, and the answer is 200 with the
    collection. *)
Lemma get_posts_empty_sort_accepted :
  ~ valid_sort EmptyString
  /\ get_posts ascii_lower (Some EmptyString) None POSTS0
     = (Response (Posts POSTS0) 200, POSTS0)
  /\ get_posts ascii_lower (Some EmptyString) None POSTS0
     <> (Response (Error "Invalid sort field. Must be 'title' or 'content'.") 400,
         POSTS0).
Proof.
  split; [intros [H|H]; discriminate H|]. split; [reflexivity | discriminate].
Qed.



(** The seed collection: an empty title for post 2 replaces its title and
    keeps its content; post 4 is not found. *)
Lemma update_post_spec_witness :
  update_post 2 (JObj [("title"%string, JStr "")]) POSTS0
  = (Response (Post (Build_post 2 (JStr "") (JStr "This is the second post."))) 200,
     [first_post; Build_post 2 (JStr "") (JStr "This is the second post.");
      third_post])
  /\ update_post 4 (JObj [("title"%string, JStr "")]) POSTS0
     = (Response (Error "Post not found") 404, POSTS0).
Proof.
  destruct (update_post_spec 2 (JObj [("title"%string, JStr "")]) POSTS0)
    as (_ & Hfound & _).
  destruct (update_post_spec 4 (JObj [("title"%string, JStr "")]) POSTS0)
    as (Habsent & _ & _).
  split.
  - destruct (Hfound [("title"%string, JStr "")] [first_post] second_post [third_post])
      as (p' & -> & Hid & Htitle & _ & _ & Hcontent).
    + reflexivity.
    + reflexivity.
    + repeat constructor. simpl. lia.
    + reflexivity.
    + destruct p' as [i t c]. cbn [post_id post_title post_content] in *.
      rewrite Hid, (Htitle (JStr "")), Hcontent; reflexivity.
  - apply Habsent. repeat constructor; simpl; lia.
Defined.

(** The seed collection and the body [{"title": "X", "content": "Y"}]: the
    new post has the id 4. *)
Lemma create_post_spec_witness :
  create_post (JObj [("title", JStr "X"); ("content", JStr "Y")]%string) POSTS0
  = (Response (Post (Build_post 4 (JStr "X") (JStr "Y"))) 201,
     POSTS0 ++ [Build_post 4 (JStr "X") (JStr "Y")]).
Proof.
  apply (create_post_spec ascii_lower ascii_lower_lowers_ascii
                          [("title", JStr "X"); ("content", JStr "Y")]%string
                          POSTS0 (JStr "X") (JStr "Y"));
    reflexivity.
Defined.

(** The seed collection has distinct ids, and has them still after a
    request that sorts it. *)
Lemma unique_ids_invariant_witness :
  unique_ids POSTS0
  /\ unique_ids (snd (handle ascii_lower
                         (GetPosts (Some "title"%string) (Some "desc"%string))
                         POSTS0)).
Proof.
  assert (H : unique_ids POSTS0).
  { unfold unique_ids. cbn [map POSTS0 post_id first_post second_post third_post].
    repeat constructor; simpl; intuition lia. }
  split; [exact H|].
  apply (unique_ids_invariant ascii_lower
           (GetPosts (Some "title"%string) (Some "desc"%string)) POSTS0 H).
Defined.

End BlogFacts.

(** ** How the requests act on the collection and on each other *)

Module Laws.
Import Py Blog Terms PyFacts BlogFacts.
Local Close Scope string_scope.

Section WithLower.
Variable lower : string -> string.
Hypothesis Hascii : lowers_ascii lower.
Hypothesis Hnonempty : keeps_nonempty lower.

(** *** The answers of each handler *)

Lemma create_post_cases (data : json) (POSTS : list post) :
  create_post data POSTS = (Raised AttributeError, POSTS)
  \/ create_post data POSTS
     = (Response (Error "Both 'title' and 'content' are required") 400, POSTS)
  \/ exists title content,
       truthy title = true /\ truthy content = true
       /\ create_post data POSTS
          = (Response (Post (Build_post (next_id POSTS) title content)) 201,
             POSTS ++ [Build_post (next_id POSTS) title content]).
Proof.
  destruct data as [| | | | | |members]; try (left; reflexivity). right.
  destruct (supplied members "title") eqn:Ht;
    [|left; apply create_post_missing; auto].
  destruct (supplied members "content") eqn:Hc;
    [|left; apply create_post_missing; auto].
  right. unfold supplied in Ht, Hc.
  destruct (dict_get "title" members) as [t|] eqn:Ht'; [|discriminate].
  destruct (dict_get "content" members) as [c|] eqn:Hc'; [|discriminate].
  exists t, c. repeat split; try assumption.
  now apply create_post_supplied.
Qed.

Lemma update_post_not_object (id : Z) (data : json) (before after : list post)
      (p : post) :
  (forall members, data <> JObj members) ->
  absent id before -> post_id p = id ->
  update_post id data (before ++ p :: after)
  = (Raised AttributeError, before ++ p :: after).
Proof.
  intros Hdata Hb Hp. unfold update_post.
  rewrite next_first; [|now apply absent_none_passes | now apply Z.eqb_eq].
  destruct data as [| | | | | |members]; try reflexivity.
  now elim (Hdata members).
Qed.

Lemma update_post_cases (id : Z) (data : json) (POSTS : list post) :
  update_post id data POSTS = (Response (Error "Post not found") 404, POSTS)
  \/ update_post id data POSTS = (Raised AttributeError, POSTS)
  \/ exists members before p after,
       data = JObj members /\ POSTS = before ++ p :: after
       /\ absent id before /\ post_id p = id
       /\ update_post id data POSTS
          = (Response (Post (updated members p)) 200,
             before ++ updated members p :: after).
Proof.
  destruct (absent_or_first id POSTS) as [H | (before & p & after & -> & Hb & Hp)].
  - left. now apply update_post_absent.
  - right. destruct data as [| | | | | |members];
      try (left; apply update_post_not_object; [discriminate|assumption..]).
    right. exists members, before, p, after. repeat split; try assumption.
    now apply update_post_first.
Qed.

Lemma delete_post_cases (id : Z) (POSTS : list post) :
  delete_post id POSTS = (Response (Error "Post not found") 404, POSTS)
  \/ exists before p after,
       POSTS = before ++ p :: after /\ absent id before /\ post_id p = id
       /\ delete_post id POSTS
          = (Response (Message ("Post with id " ++ str_of_int id
                                ++ " has been deleted successfully.")%string) 200,
             before ++ after).
Proof.
  destruct (absent_or_first id POSTS) as [H | (before & p & after & -> & Hb & Hp)].
  - left. now apply delete_post_absent.
  - right. exists before, p, after. repeat split; try assumption.
    now apply delete_post_first.
Qed.

Lemma search_posts_cases (title content : option string) (POSTS : list post) :
  (exists e, search_posts lower title content POSTS = (Raised e, POSTS))
  \/ exists found,
       search_posts lower title content POSTS = (Response (Posts found) 200, POSTS).
Proof.
  unfold search_posts. destruct (comprehension _ POSTS) as [e|found].
  - left. now exists e.
  - right. now exists found.
Qed.

(** X1.  A request that is not served, because it answers 400 or 404 or
    because its handler raises, leaves the collection as it was. *)
Theorem failure_keeps_collection (r : request) (POSTS : list post) :
  succeeded (fst (handle lower r POSTS)) = false -> snd (handle lower r POSTS) = POSTS.
Proof.
  destruct r as [sort_by direction|data|id|id data|title content]; cbn [handle].
  - destruct (get_posts_cases lower sort_by direction POSTS)
      as [[msg ->] | [[e ->] | (sorted & -> & _)]]; try reflexivity.
    discriminate.
  - destruct (create_post_cases data POSTS)
      as [-> | [-> | (t & c & _ & _ & ->)]]; try reflexivity.
    discriminate.
  - destruct (delete_post_cases id POSTS)
      as [-> | (before & p & after & _ & _ & _ & ->)]; try reflexivity.
    discriminate.
  - destruct (update_post_cases id data POSTS)
      as [-> | [-> | (m & before & p & after & _ & _ & _ & _ & ->)]];
      try reflexivity.
    discriminate.
  - intros _. apply search_posts_state.
Qed.

Lemma get_posts_perm (sort_by direction : option string) (POSTS : list post) :
  Permutation POSTS (snd (get_posts lower sort_by direction POSTS)).
Proof.
  destruct (get_posts_cases lower sort_by direction POSTS)
    as [[msg ->] | [[e ->] | (sorted & -> & Hperm)]]; cbn [snd];
    try apply Permutation_refl.
  exact Hperm.
Qed.

(** X2.  A list request never adds, drops or alters a post, whatever its
    parameters and whatever the posts are: the collection after it is a
    permutation of the collection before it; and when the request answers
    posts, the status is 200 and the posts answered are the collection as
    it is then. *)
Theorem list_keeps_posts (sort_by direction : option string) (POSTS : list post) :
  Permutation POSTS (snd (get_posts lower sort_by direction POSTS))
  /\ forall listed status,
       fst (get_posts lower sort_by direction POSTS) = Response (Posts listed) status ->
       status = 200 /\ listed = snd (get_posts lower sort_by direction POSTS).
Proof.
  destruct (get_posts_cases lower sort_by direction POSTS)
    as [[msg ->] | [[e ->] | (sorted & -> & Hperm)]]; cbn [fst snd].
  - split; [apply Permutation_refl | discriminate].
  - split; [apply Permutation_refl | discriminate].
  - split; [exact Hperm|]. intros listed status H. now injection H as <- <-.
Qed.

(** X3.  The service answers no other status than 200, 201, 400 and 404:
    201 only to a create request, 400 only to a list or a create request,
    404 only to a delete or an update request. *)
Theorem statuses (r : request) (POSTS : list post) (body : payload) (status : Z) :
  fst (handle lower r POSTS) = Response body status ->
  status = 200
  \/ (status = 201 /\ exists data, r = CreatePost data)
  \/ (status = 400
      /\ ((exists sort_by direction, r = GetPosts sort_by direction)
          \/ exists data, r = CreatePost data))
  \/ (status = 404
      /\ ((exists id, r = DeletePost id) \/ exists id data, r = UpdatePost id data)).
Proof.
  destruct r as [sort_by direction|data|id|id data|title content]; cbn [handle].
  - destruct (get_posts_cases lower sort_by direction POSTS)
      as [[msg ->] | [[e ->] | (sorted & -> & _)]]; cbn [fst]; intros H;
      try discriminate H; injection H as _ <-; [|now left].
    right. right. left. split; [reflexivity|]. left. now exists sort_by, direction.
  - destruct (create_post_cases data POSTS)
      as [-> | [-> | (t & c & _ & _ & ->)]]; cbn [fst]; intros H;
      try discriminate H; injection H as _ <-.
    + right. right. left. split; [reflexivity|]. right. now exists data.
    + right. left. split; [reflexivity|]. now exists data.
  - destruct (delete_post_cases id POSTS)
      as [-> | (before & p & after & _ & _ & _ & ->)]; cbn [fst]; intros H;
      injection H as _ <-; [|now left].
    right. right. right. split; [reflexivity|]. left. now exists id.
  - destruct (update_post_cases id data POSTS)
      as [-> | [-> | (m & before & p & after & _ & _ & _ & _ & ->)]];
      cbn [fst]; intros H; try discriminate H; injection H as _ <-; [|now left].
    right. right. right. split; [reflexivity|]. right. now exists id, data.
  - destruct (search_posts_cases title content POSTS) as [[e ->] | [found ->]];
      cbn [fst]; intros H; try discriminate H; injection H as _ <-. now left.
Qed.

(** X4.  A body that is not a JSON object (a list, a string, a number,
    [null]) makes a create request raise [AttributeError].  An update
    request with such a body raises it too when a post has the id, and the
    collection stays as it was; when no post has the id the request answers
    404, because the post is looked up before the body is read. *)
Theorem not_object_raises (id : Z) (data : json) (POSTS : list post) :
  (forall members, data <> JObj members) ->
  create_post data POSTS = (Raised AttributeError, POSTS)
  /\ (absent id POSTS ->
      update_post id data POSTS = (Response (Error "Post not found") 404, POSTS))
  /\ (~ absent id POSTS ->
      update_post id data POSTS = (Raised AttributeError, POSTS)).
Proof.
  intros Hdata. split; [now apply create_post_not_object|].
  split; [apply update_post_absent|].
  intros Hnot.
  destruct (absent_or_first id POSTS) as [H | (before & p & after & -> & Hb & Hp)];
    [now elim Hnot|].
  now apply update_post_not_object.
Qed.

(** *** Ids *)

Lemma greatest_unique (m m' : Z) (l : list Z) :
  greatest m l -> greatest m' l -> m = m'.
Proof.
  intros [Hin Hle] [Hin' Hle']. rewrite Forall_forall in Hle, Hle'.
  specialize (Hle m' Hin'). specialize (Hle' m Hin). lia.
Qed.

Lemma next_id_of_greatest (m : Z) (POSTS : list post) :
  greatest m (map post_id POSTS) -> next_id POSTS = m + 1.
Proof.
  intros H. destruct (next_id_greatest POSTS) as (m' & H' & ->).
  - destruct H as [Hin _]. now destruct POSTS.
  - now rewrite (greatest_unique m m' _ H H').
Qed.

Lemma next_id_after_create (POSTS : list post) (title content : json) :
  next_id (POSTS ++ [Build_post (next_id POSTS) title content]) = next_id POSTS + 1.
Proof.
  apply next_id_of_greatest. rewrite map_app. cbn [map post_id]. split.
  - apply in_or_app. right. now left.
  - apply Forall_app. split; [|repeat constructor; lia].
    rewrite Forall_map. eapply Forall_impl; [|apply next_id_above].
    cbn beta. intros; lia.
Qed.

(** X5.  A post that was just created can be deleted by the id it was
    given: the delete request answers 200 and the collection is again what
    it was before the post was created.  A post created after that gets the
    same id again. *)
Theorem create_then_delete (members members' : list (string * json))
        (POSTS : list post) (title content title' content' : json) :
  dict_get "title" members = Some title -> truthy title = true ->
  dict_get "content" members = Some content -> truthy content = true ->
  dict_get "title" members' = Some title' -> truthy title' = true ->
  dict_get "content" members' = Some content' -> truthy content' = true ->
  let id := next_id POSTS in
  fst (create_post (JObj members) POSTS) = Response (Post (Build_post id title content)) 201
  /\ delete_post id (snd (create_post (JObj members) POSTS))
     = (Response (Message ("Post with id " ++ str_of_int id
                           ++ " has been deleted successfully.")%string) 200,
        POSTS)
  /\ fst (create_post (JObj members')
            (snd (delete_post id (snd (create_post (JObj members) POSTS)))))
     = Response (Post (Build_post id title' content')) 201.
Proof.
  intros Ht Htt Hc Hct Ht' Htt' Hc' Hct' id. subst id.
  rewrite (create_post_supplied members POSTS title content) by assumption.
  cbn [fst snd]. split; [reflexivity|].
  assert (Hdel : delete_post (next_id POSTS)
                   (POSTS ++ [Build_post (next_id POSTS) title content])
                 = (Response (Message ("Post with id " ++ str_of_int (next_id POSTS)
                      ++ " has been deleted successfully.")%string) 200, POSTS)).
  { rewrite delete_post_first; [now rewrite app_nil_r| |reflexivity].
    unfold absent. eapply Forall_impl; [|apply next_id_above].
    cbn beta. intros; lia. }
  rewrite Hdel. cbn [snd]. split; [reflexivity|].
  now rewrite (create_post_supplied members' POSTS title' content').
Qed.

(** X6.  Two create requests in a row get ids that follow each other: the
    second post has the id of the first plus one, and both are at the end
    of the collection in the order of their creation. *)
Theorem successive_ids (members members' : list (string * json))
        (POSTS : list post) (title content title' content' : json) :
  dict_get "title" members = Some title -> truthy title = true ->
  dict_get "content" members = Some content -> truthy content = true ->
  dict_get "title" members' = Some title' -> truthy title' = true ->
  dict_get "content" members' = Some content' -> truthy content' = true ->
  create_post (JObj members') (snd (create_post (JObj members) POSTS))
  = (Response (Post (Build_post (next_id POSTS + 1) title' content')) 201,
     POSTS ++ [Build_post (next_id POSTS) title content;
               Build_post (next_id POSTS + 1) title' content']).
Proof.
  intros Ht Htt Hc Hct Ht' Htt' Hc' Hct'.
  rewrite (create_post_supplied members POSTS title content) by assumption.
  cbn [snd].
  rewrite (create_post_supplied members' _ title' content') by assumption.
  rewrite next_id_after_create, <- app_assoc. reflexivity.
Qed.

(** X7.  In a collection with distinct ids a delete request leaves no post
    of its id behind: the same request again answers 404 and changes
    nothing. *)
Theorem delete_twice (id : Z) (POSTS : list post) :
  unique_ids POSTS ->
  absent id (snd (delete_post id POSTS))
  /\ delete_post id (snd (delete_post id POSTS))
     = (Response (Error "Post not found") 404, snd (delete_post id POSTS)).
Proof.
  intros Hu.
  assert (Habsent : absent id (snd (delete_post id POSTS))).
  { destruct (delete_post_cases id POSTS)
      as [H | (before & p & after & -> & Hb & Hp & ->)]; cbn [snd].
    - destruct (absent_or_first id POSTS)
        as [Ha | (before & p & after & -> & Hb & Hp)]; [now rewrite H|].
      rewrite delete_post_first in H by assumption. discriminate H.
    - unfold unique_ids in Hu. rewrite map_app in Hu. cbn [map] in Hu.
      apply NoDup_remove_2 in Hu. unfold absent. apply Forall_app.
      split; [exact Hb|]. apply Forall_forall. intros q Hq Heq. apply Hu.
      apply in_or_app. right. rewrite Hp, <- Heq. now apply in_map. }
  split; [exact Habsent | now apply delete_post_absent].
Qed.

Lemma updated_twice (members : list (string * json)) (p : post) :
  updated members (updated members p) = updated members p.
Proof.
  unfold updated, replaced. cbn [post_id post_title post_content].
  destruct (dict_get "title" members), (dict_get "content" members); reflexivity.
Qed.

(** X8.  An update request that is repeated answers the same and leaves the
    same collection as the first time, whatever the id and the body are. *)
Theorem update_twice (id : Z) (data : json) (POSTS : list post) :
  update_post id data (snd (update_post id data POSTS)) = update_post id data POSTS.
Proof.
  destruct (update_post_cases id data POSTS)
    as [H | [H | (m & before & p & after & -> & -> & Hb & Hp & H)]];
    rewrite H; cbn [snd]; try exact H.
  rewrite update_post_first by assumption. now rewrite updated_twice.
Qed.

(** X9.  An update request never changes an id, nor the number or the order
    of the posts, whatever its body has, a key ["id"] too; and with a body
    object that has neither ["title"] nor ["content"] it changes nothing at
    all. *)
Theorem update_keeps_ids (id : Z) (data : json) (POSTS : list post) :
  map post_id (snd (update_post id data POSTS)) = map post_id POSTS
  /\ (forall members,
        data = JObj members ->
        dict_get "title" members = None -> dict_get "content" members = None ->
        snd (update_post id data POSTS) = POSTS).
Proof.
  split; [apply update_post_state|].
  intros members -> Ht Hc.
  destruct (update_post_cases id (JObj members) POSTS)
    as [-> | [-> | (m & before & p & after & Hm & -> & Hb & Hp & ->)]];
    try reflexivity.
  injection Hm as <-. cbn [snd]. unfold updated, replaced. rewrite Ht, Hc.
  now destruct p.
Qed.

Lemma next_id_positive (POSTS : list post) :
  positive_ids POSTS -> 0 < next_id POSTS.
Proof.
  destruct POSTS as [|p rest]; [reflexivity|]. intros H.
  pose proof (next_id_above (p :: rest)) as Habove.
  inversion Habove as [|? ? Hp _]. inversion H as [|? ? Hpos _]. lia.
Qed.

Lemma positive_ids_step (r : request) (POSTS : list post) :
  positive_ids POSTS -> positive_ids (snd (handle lower r POSTS)).
Proof.
  intros H. destruct r as [sort_by direction|data|id|id data|title content];
    cbn [handle].
  - unfold positive_ids in *. eapply Permutation_Forall; [|exact H].
    apply Permutation_map. apply get_posts_perm.
  - destruct (create_post_cases data POSTS)
      as [-> | [-> | (t & c & _ & _ & ->)]]; try exact H.
    cbn [snd]. unfold positive_ids in *. rewrite map_app. apply Forall_app.
    split; [exact H|]. repeat constructor. cbn [post_id].
    now apply next_id_positive.
  - destruct (delete_post_cases id POSTS)
      as [-> | (before & p & after & -> & _ & _ & ->)]; [exact H|].
    cbn [snd]. unfold positive_ids in *. rewrite map_app in *. cbn [map] in H.
    apply Forall_app in H. destruct H as [Hb Ha]. apply Forall_app.
    split; [exact Hb|]. now inversion Ha.
  - unfold positive_ids. now rewrite update_post_state.
  - now rewrite search_posts_state.
Qed.

(** X10.  Positive ids are kept by every request: a collection whose ids
    are all positive is followed by one whose ids are all positive, and the
    id that the next post will get is positive too. *)
Theorem positive_ids_invariant (r : request) (POSTS : list post) :
  positive_ids POSTS ->
  positive_ids (snd (handle lower r POSTS)) /\ 0 < next_id (snd (handle lower r POSTS)).
Proof.
  intros H. pose proof (positive_ids_step r POSTS H) as Hnext.
  split; [exact Hnext | now apply next_id_positive].
Qed.

Lemma next_id_perm (l l' : list post) :
  Permutation (map post_id l) (map post_id l') -> next_id l = next_id l'.
Proof.
  intros Hperm. destruct l as [|p rest].
  - apply Permutation_nil in Hperm. now destruct l'.
  - destruct (next_id_greatest (p :: rest)) as (m & [Hin Hle] & ->); [discriminate|].
    symmetry. apply next_id_of_greatest. split.
    + eapply Permutation_in; [exact Hperm | exact Hin].
    + eapply Permutation_Forall; [exact Hperm | exact Hle].
Qed.

(** X11.  The id that the next post will get is changed by create and
    delete requests only: a list request, whatever it sorts, an update
    request and a search request leave it as it is. *)
Theorem next_id_kept (r : request) (POSTS : list post) :
  keeps_posts r = true -> next_id (snd (handle lower r POSTS)) = next_id POSTS.
Proof.
  destruct r as [sort_by direction|data|id|id data|title content];
    cbn [keeps_posts handle]; try discriminate; intros _.
  - symmetry. apply next_id_perm, Permutation_map, get_posts_perm.
  - apply next_id_perm. now rewrite update_post_state.
  - now rewrite search_posts_state.
Qed.

(** *** The data model *)

Lemma well_typed_updated (members : list (string * json)) (p : post) :
  string_fields members -> well_typed p -> well_typed (updated members p).
Proof.
  intros [Ht Hc] [Hpt Hpc]. unfold well_typed, updated, replaced.
  cbn [post_title post_content]. split.
  - destruct (dict_get "title" members) as [v|]; [now apply Ht | exact Hpt].
  - destruct (dict_get "content" members) as [v|]; [now apply Hc | exact Hpc].
Qed.

Lemma well_typed_step (r : request) (POSTS : list post) :
  Forall well_typed POSTS -> sends_strings r ->
  Forall well_typed (snd (handle lower r POSTS)).
Proof.
  intros H Hr. destruct r as [sort_by direction|data|id|id data|title content];
    cbn [handle].
  - eapply Permutation_Forall; [apply get_posts_perm | exact H].
  - destruct data as [| | | | | |members]; try exact H.
    cbn [sends_strings] in Hr. destruct Hr as [Ht Hc].
    destruct (supplied members "title") eqn:Hst;
      [|rewrite create_post_missing; auto].
    destruct (supplied members "content") eqn:Hsc;
      [|rewrite create_post_missing; auto].
    unfold supplied in Hst, Hsc.
    destruct (dict_get "title" members) as [t|] eqn:Ht'; [|discriminate].
    destruct (dict_get "content" members) as [c|] eqn:Hc'; [|discriminate].
    rewrite (create_post_supplied members POSTS t c) by assumption.
    cbn [snd]. apply Forall_app. split; [exact H|].
    repeat constructor; cbn [post_title post_content]; auto.
  - destruct (delete_post_cases id POSTS)
      as [-> | (before & p & after & -> & _ & _ & ->)]; [exact H|].
    cbn [snd]. apply Forall_app in H. destruct H as [Hb Ha]. apply Forall_app.
    split; [exact Hb|]. now inversion Ha.
  - destruct (update_post_cases id data POSTS)
      as [-> | [-> | (m & before & p & after & -> & -> & _ & _ & ->)]];
      try exact H.
    cbn [snd]. cbn [sends_strings] in Hr.
    apply Forall_app in H. destruct H as [Hb Ha]. apply Forall_app.
    split; [exact Hb|]. inversion Ha as [|? ? Hp Hafter]. constructor.
    + now apply well_typed_updated.
    + exact Hafter.
  - now rewrite search_posts_state.
Qed.

Lemma well_typed_field (sort_by : string) (l : list post) :
  Forall well_typed l -> Forall (fun p => is_str (field sort_by p) = true) l.
Proof.
  apply Forall_impl. intros p [Ht Hc]. unfold field.
  now destruct (String.eqb sort_by "title").
Qed.

(** X12.  The data model is kept as long as the requests send strings: when
    the title and the content of every post are strings and a request has
    no body, or a body whose title and content, where present, are strings,
    the title and the content of every post are strings afterwards; so
    every list request with a valid sort field and direction is served
    after it. *)
Theorem data_model_kept (r : request) (POSTS : list post) :
  Forall well_typed POSTS -> sends_strings r ->
  Forall well_typed (snd (handle lower r POSTS))
  /\ forall sort_by direction,
       valid_sort sort_by -> valid_direction lower direction ->
       succeeded (fst (get_posts lower (Some sort_by) direction
                                 (snd (handle lower r POSTS))))
       = true.
Proof.
  intros H Hr. pose proof (well_typed_step r POSTS H Hr) as Hnext.
  split; [exact Hnext|]. intros sort_by direction Hs Hd.
  destruct (get_posts_sorted lower sort_by direction (snd (handle lower r POSTS)) Hs Hd)
    as (sorted & -> & _); [now apply well_typed_field | reflexivity].
Qed.

Lemma comprehension_raises (test : post -> exn + bool) (l : list post) :
  Exists (fun p => exists e, test p = inl e) l ->
  exists e, comprehension test l = inl e.
Proof.
  induction 1 as [p l [e Hp] | p l _ [e IH]]; cbn [comprehension].
  - rewrite Hp. now exists e.
  - destruct (test p) as [e'|b]; [now exists e'|].
    cbn [bind]. rewrite IH. now exists e.
Qed.

(** X13.  A create request is served for any truthy title, a string or not.
    Once a post has a title that is not a string, every list request that
    sorts by title raises, and so does every search with a title query that
    is not empty; the collection stays as it is. *)
Theorem non_string_title_breaks (members : list (string * json))
        (POSTS : list post) (title content : json)
        (direction : option string) (title_query : string)
        (content_query : option string) :
  dict_get "title" members = Some title -> truthy title = true ->
  dict_get "content" members = Some content -> truthy content = true ->
  is_str title = false ->
  valid_direction lower direction -> title_query <> EmptyString ->
  let after := POSTS ++ [Build_post (next_id POSTS) title content] in
  create_post (JObj members) POSTS
  = (Response (Post (Build_post (next_id POSTS) title content)) 201, after)
  /\ (exists e,
        get_posts lower (Some "title"%string) direction after = (Raised e, after))
  /\ (exists e,
        search_posts lower (Some title_query) content_query after
        = (Raised e, after)).
Proof.
  intros Ht Htt Hc Hct Hstr Hd Hq after.
  split; [now apply create_post_supplied|]. split.
  - apply get_posts_raises; [now left | exact Hd|].
    apply Exists_app. right. now left.
  - unfold search_posts.
    destruct (comprehension_raises
                (matches lower (lower (or_default (Some title_query) ""))
                         (lower (or_default content_query ""))) after) as [e He].
    + apply Exists_app. right. left. exists AttributeError.
      unfold matches. cbn [or_default post_title].
      assert (String.eqb (lower title_query) "" = false) as ->
          by (apply String.eqb_neq; intros H; now apply Hq, Hnonempty).
      cbn [negb]. now destruct title.
    + exists e. now rewrite He.
Qed.

(** *** Upper and lower case *)


(** *** Searches in a row *)

Lemma filter_keep_both (title_query content_query : string) (l : list post) :
  filter (keep lower "" content_query) (filter (keep lower title_query "") l)
  = filter (keep lower title_query content_query) l.
Proof.
  induction l as [|p l IH]; [reflexivity|]. cbn [filter].
  assert (H : keep lower title_query content_query p
              = keep lower title_query "" p && keep lower "" content_query p).
  { unfold keep. cbn [String.eqb orb andb]. now rewrite andb_true_r. }
  rewrite H. destruct (keep lower title_query "" p); cbn [andb filter];
    [|exact IH].
  destruct (keep lower "" content_query p); now rewrite IH.
Qed.

Lemma well_typed_filter (f : post -> bool) (l : list post) :
  Forall well_typed l -> Forall well_typed (filter f l).
Proof.
  rewrite !Forall_forall. intros H p Hp. apply filter_In in Hp. now apply H.
Qed.

(** X15.  On posts of the data model, a search with both queries answers
    what a search with the content query alone finds among the posts that
    the title query alone finds. *)
Theorem search_narrows (title content : option string) (POSTS : list post) :
  Forall well_typed POSTS ->
  exists by_title,
    search_posts lower title None POSTS = (Response (Posts by_title) 200, POSTS)
    /\ fst (search_posts lower title content POSTS)
       = fst (search_posts lower None content by_title).
Proof.
  intros H. eexists. split; [now apply search_posts_well_typed|].
  rewrite (search_posts_well_typed lower title content POSTS H).
  rewrite search_posts_well_typed by now apply well_typed_filter.
  cbn [fst or_default]. rewrite (lower_empty_string lower Hascii).
  now rewrite filter_keep_both.
Qed.

(** *** Sorts in a row *)

Section StableOrder.
Context {A : Type}.
Variable k : A -> string.
Variable reverse : bool.

Lemma in_order_antisym (a b : A) :
  in_order k reverse a b -> in_order k reverse b a -> k a = k b.
Proof.
  unfold in_order. destruct reverse; intros H1 H2;
    [symmetry|]; now apply le_antisym.
Qed.

(** The head of a sorted list has the key of any item that heads another
    sorted list with the same items of each key. *)
Lemma head_in_order (a b : A) (l1 l2 : list A) :
  StronglySorted (in_order k reverse) (a :: l1) ->
  filter (fun x => String.eqb (k x) (k b)) (a :: l1)
  = filter (fun x => String.eqb (k x) (k b)) (b :: l2) ->
  a = b \/ in_order k reverse a b.
Proof.
  intros Hs H. cbn [filter] in H. rewrite (String.eqb_refl (k b)) in H.
  assert (Hin : In b (a :: l1)).
  { assert (Hf : In b (filter (fun x => String.eqb (k x) (k b)) (a :: l1)))
      by (cbn [filter]; rewrite H; now left).
    now apply filter_In in Hf. }
  destruct Hin as [->|Hin]; [now left|]. right.
  apply StronglySorted_inv in Hs. destruct Hs as [_ Ha].
  rewrite Forall_forall in Ha. now apply Ha.
Qed.

(** A list is determined by its being sorted and by the order of the items
    of each key. *)
Lemma sorted_stable_unique (l1 l2 : list A) :
  StronglySorted (in_order k reverse) l1 ->
  StronglySorted (in_order k reverse) l2 ->
  (forall s, filter (fun x => String.eqb (k x) s) l1
             = filter (fun x => String.eqb (k x) s) l2) ->
  l1 = l2.
Proof.
  revert l2. induction l1 as [|a l1 IH]; intros [|b l2] H1 H2 H.
  - reflexivity.
  - specialize (H (k b)). cbn [filter] in H.
    rewrite String.eqb_refl in H. discriminate H.
  - specialize (H (k a)). cbn [filter] in H.
    rewrite String.eqb_refl in H. discriminate H.
  - assert (Hk : k a = k b).
    { destruct (head_in_order a b l1 l2 H1 (H (k b))) as [->|Hab]; [reflexivity|].
      destruct (head_in_order b a l2 l1 H2 (eq_sym (H (k a)))) as [->|Hba];
        [reflexivity|].
      now apply in_order_antisym. }
    assert (Hab : a = b).
    { specialize (H (k a)). cbn [filter] in H.
      rewrite String.eqb_refl, <- Hk, String.eqb_refl in H. now injection H. }
    subst b. f_equal.
    apply StronglySorted_inv in H1, H2.
    apply IH; [apply H1 | apply H2|].
    intros s. specialize (H s). cbn [filter] in H.
    destruct (String.eqb (k a) s); [now injection H | exact H].
Qed.
End StableOrder.

(** X16.  A sort by a field does not depend on earlier sorts by the same
    field: on posts with strings in the field, a list request that follows
    another one with the same sort field, in either direction, answers the
    same list as it would have answered in its place.  So the same request
    twice answers the same list twice. *)
Theorem sort_overrides (sort_by : string) (first second : option string)
        (POSTS : list post) :
  valid_sort sort_by -> valid_direction lower first -> valid_direction lower second ->
  Forall (fun p => is_str (field sort_by p) = true) POSTS ->
  get_posts lower (Some sort_by) second (snd (get_posts lower (Some sort_by) first POSTS))
  = get_posts lower (Some sort_by) second POSTS
  /\ get_posts lower (Some sort_by) first (snd (get_posts lower (Some sort_by) first POSTS))
     = get_posts lower (Some sort_by) first POSTS.
Proof.
  intros Hs H1 H2 Htyped.
  assert (Hgen : forall d, valid_direction lower d ->
            get_posts lower (Some sort_by) d
              (snd (get_posts lower (Some sort_by) first POSTS))
            = get_posts lower (Some sort_by) d POSTS).
  { intros d Hd.
    destruct (get_posts_sorted lower sort_by first POSTS Hs H1 Htyped)
      as (sorted1 & -> & Hperm1 & _ & Hst1).
    cbn [snd].
    destruct (get_posts_sorted lower sort_by d sorted1 Hs Hd)
      as (sorted12 & -> & _ & Hso12 & Hst12).
    { eapply Permutation_Forall; [exact Hperm1 | exact Htyped]. }
    destruct (get_posts_sorted lower sort_by d POSTS Hs Hd Htyped)
      as (sorted2 & -> & _ & Hso2 & Hst2).
    assert (sorted12 = sorted2) as ->; [|reflexivity].
    apply (sorted_stable_unique (sort_key lower sort_by) (descending lower d));
      [exact Hso12 | exact Hso2|].
    intros s. now rewrite Hst12, Hst1, Hst2. }
  split; now apply Hgen.
Qed.

(** *** Ids over time *)

(** X17.  The id of a deleted post is not given again while a post with a
    greater id is left: deleting a post that has not the greatest id does
    not change the id that the next post will get, which is greater than
    the id deleted. *)
Theorem delete_keeps_next_id (id : Z) (POSTS : list post) (q : post) :
  In q POSTS -> id < post_id q ->
  next_id (snd (delete_post id POSTS)) = next_id POSTS
  /\ id < next_id (snd (delete_post id POSTS)).
Proof.
  intros Hq Hlt.
  assert (Hsame : next_id (snd (delete_post id POSTS)) = next_id POSTS).
  { destruct (delete_post_cases id POSTS)
      as [-> | (before & p & after & -> & _ & Hp & ->)]; [reflexivity|].
    cbn [snd].
    destruct (next_id_greatest (before ++ p :: after)) as (m & [Hin Hle] & ->);
      [now destruct before|].
    apply next_id_of_greatest.
    rewrite Forall_forall in Hle.
    assert (Hm : post_id q <= m) by (apply Hle; now apply in_map).
    rewrite map_app in *. cbn [map] in *.
    split.
    - apply in_app_or in Hin. apply in_or_app.
      destruct Hin as [Hin | [Hin | Hin]]; [now left | lia | now right].
    - apply Forall_forall. intros n Hn. apply Hle.
      apply in_app_or in Hn. apply in_or_app.
      destruct Hn as [Hn|Hn]; [now left | right; now right]. }
  split; [exact Hsame|]. rewrite Hsame.
  pose proof (next_id_above POSTS) as Habove. rewrite Forall_forall in Habove.
  specialize (Habove q Hq). lia.
Qed.

Lemma unique_ids_step (r : request) (POSTS : list post) :
  unique_ids POSTS -> unique_ids (snd (handle lower r POSTS)).
Proof.
  intros H. destruct r as [sort_by direction|data|id|id data|title content];
    cbn [handle].
  - unfold unique_ids in *. eapply Permutation_NoDup; [|exact H].
    apply Permutation_map, get_posts_perm.
  - destruct (create_post_cases data POSTS)
      as [-> | [-> | (t & c & _ & _ & ->)]]; try exact H.
    now apply unique_ids_create.
  - now apply unique_ids_delete.
  - unfold unique_ids. now rewrite update_post_state.
  - now rewrite search_posts_state.
Qed.

Lemma run_unique_positive (rs : list request) (POSTS : list post) :
  unique_ids POSTS -> positive_ids POSTS ->
  unique_ids (run lower rs POSTS) /\ positive_ids (run lower rs POSTS).
Proof.
  unfold run. revert POSTS.
  induction rs as [|r rs IH]; intros l Hu Hp; cbn [fold_left]; [now split|].
  apply IH; [now apply unique_ids_step | now apply positive_ids_step].
Qed.

Lemma run_well_typed (rs : list request) (POSTS : list post) :
  Forall well_typed POSTS -> Forall sends_strings rs ->
  Forall well_typed (run lower rs POSTS).
Proof.
  unfold run. revert POSTS.
  induction rs as [|r rs IH]; intros l Ht Hrs; cbn [fold_left]; [exact Ht|].
  inversion Hrs as [|? ? Hr Hrest]; subst.
  apply IH; [now apply well_typed_step | exact Hrest].
Qed.

(** X18.  From the start of the process on, whatever requests are served
    one after the other, the ids of the collection are distinct and
    positive; and the title and the content of every post are strings as
    long as every request sent strings. *)
Theorem always_distinct_positive (rs : list request) :
  unique_ids (run lower rs POSTS0)
  /\ positive_ids (run lower rs POSTS0)
  /\ (Forall sends_strings rs -> Forall well_typed (run lower rs POSTS0)).
Proof.
  assert (Hu : unique_ids POSTS0).
  { unfold unique_ids. cbn [map POSTS0 post_id first_post second_post third_post].
    repeat constructor; simpl; intuition lia. }
  assert (Hp : positive_ids POSTS0).
  { unfold positive_ids.
    cbn [map POSTS0 post_id first_post second_post third_post].
    repeat constructor. }
  destruct (run_unique_positive rs POSTS0 Hu Hp) as [Hu' Hp'].
  repeat split; try assumption.
  apply run_well_typed. repeat constructor.
Qed.

(** X19.  Among posts of the data model every post is found by a search
    for its own title and content, in whatever case they are written in the
    post and whatever [str.lower] makes of them. *)
Theorem found_by_own_fields (POSTS : list post) (p : post) (title content : string) :
  Forall well_typed POSTS -> In p POSTS ->
  post_title p = JStr title -> post_content p = JStr content ->
  exists found,
    search_posts lower (Some title) (Some content) POSTS
    = (Response (Posts found) 200, POSTS)
    /\ In p found.
Proof.
  intros H Hp Ht Hc. eexists. split; [now apply search_posts_well_typed|].
  apply filter_In. split; [exact Hp|].
  unfold keep. cbn [or_default]. rewrite Ht, Hc. cbn [text].
  now rewrite !contains_refl, !orb_true_r.
Qed.

End WithLower.

(** *** Instances at [ascii_lower] *)

(** A create request without a content on the seed collection. *)
Lemma failure_keeps_collection_witness :
  snd (handle ascii_lower (CreatePost (JObj [("title"%string, JStr "X")])) POSTS0)
  = POSTS0.
Proof.
  apply (failure_keeps_collection ascii_lower
           (CreatePost (JObj [("title"%string, JStr "X")])) POSTS0).
  reflexivity.
Defined.

(** An update of post 4 on the seed collection answers 404. *)
Lemma statuses_witness :
  404 = 200
  \/ (404 = 201 /\ exists data, UpdatePost 4 (JObj []) = CreatePost data)
  \/ (404 = 400
      /\ ((exists sort_by direction,
              UpdatePost 4 (JObj []) = GetPosts sort_by direction)
          \/ exists data, UpdatePost 4 (JObj []) = CreatePost data))
  \/ (404 = 404
      /\ ((exists id, UpdatePost 4 (JObj []) = DeletePost id)
          \/ exists id data, UpdatePost 4 (JObj []) = UpdatePost id data)).
Proof.
  apply (statuses ascii_lower (UpdatePost 4 (JObj [])) POSTS0 (Error "Post not found") 404).
  reflexivity.
Defined.

(** The body [[]] on the seed collection, for the ids 2 and 4. *)
Lemma not_object_raises_witness :
  create_post (JArr []) POSTS0 = (Raised AttributeError, POSTS0)
  /\ update_post 4 (JArr []) POSTS0 = (Response (Error "Post not found") 404, POSTS0)
  /\ update_post 2 (JArr []) POSTS0 = (Raised AttributeError, POSTS0).
Proof.
  destruct (not_object_raises 4 (JArr []) POSTS0) as (Hc & H4 & _); [discriminate|].
  destruct (not_object_raises 2 (JArr []) POSTS0) as (_ & _ & H2); [discriminate|].
  split; [exact Hc|]. split.
  - apply H4. repeat constructor; simpl; lia.
  - apply H2. intros H. inversion H as [|? ? _ H']. inversion H' as [|? ? Hid _].
    now apply Hid.
Defined.

(** The seed collection: post 4 is created, deleted and created again. *)
Lemma create_then_delete_witness :
  delete_post 4 (snd (create_post
                        (JObj [("title", JStr "X"); ("content", JStr "Y")]%string)
                        POSTS0))
  = (Response (Message "Post with id 4 has been deleted successfully.") 200, POSTS0).
Proof.
  apply (create_then_delete
           [("title", JStr "X"); ("content", JStr "Y")]%string
           [("title", JStr "X"); ("content", JStr "Y")]%string
           POSTS0 (JStr "X") (JStr "Y") (JStr "X") (JStr "Y"));
    reflexivity.
Defined.

(** The seed collection gets the posts 4 and 5. *)
Lemma successive_ids_witness :
  create_post (JObj [("title", JStr "B"); ("content", JStr "b")]%string)
    (snd (create_post (JObj [("title", JStr "A"); ("content", JStr "a")]%string)
                      POSTS0))
  = (Response (Post (Build_post 5 (JStr "B") (JStr "b"))) 201,
     POSTS0 ++ [Build_post 4 (JStr "A") (JStr "a");
                Build_post 5 (JStr "B") (JStr "b")]).
Proof.
  apply (successive_ids [("title", JStr "A"); ("content", JStr "a")]%string
                        [("title", JStr "B"); ("content", JStr "b")]%string
                        POSTS0 (JStr "A") (JStr "a") (JStr "B") (JStr "b"));
    reflexivity.
Defined.

(** Post 2 of the seed collection is deleted twice. *)
Lemma delete_twice_witness :
  delete_post 2 (snd (delete_post 2 POSTS0))
  = (Response (Error "Post not found") 404, snd (delete_post 2 POSTS0)).
Proof.
  apply (delete_twice 2 POSTS0).
  unfold unique_ids. cbn [map POSTS0 post_id first_post second_post third_post].
  repeat constructor; simpl; intuition lia.
Defined.

(** The seed collection after a create request. *)
Lemma positive_ids_invariant_witness :
  positive_ids (snd (handle ascii_lower (CreatePost
                               (JObj [("title", JStr "X"); ("content", JStr "Y")]%string))
                            POSTS0)).
Proof.
  apply (positive_ids_invariant ascii_lower
           (CreatePost (JObj [("title", JStr "X"); ("content", JStr "Y")]%string))
           POSTS0).
  unfold positive_ids. cbn [map POSTS0 post_id first_post second_post third_post].
  repeat constructor.
Defined.

(** The seed collection sorted by title, descending: the next id is 4. *)
Lemma next_id_kept_witness :
  next_id (snd (handle ascii_lower
                  (GetPosts (Some "title"%string) (Some "desc"%string)) POSTS0))
  = next_id POSTS0.
Proof.
  apply (next_id_kept ascii_lower
           (GetPosts (Some "title"%string) (Some "desc"%string)) POSTS0).
  reflexivity.
Defined.

(** An update of the seed collection with a string for the title. *)
Lemma data_model_kept_witness :
  Forall well_typed
    (snd (handle ascii_lower (UpdatePost 2 (JObj [("title"%string, JStr "T")])) POSTS0)).
Proof.
  apply (data_model_kept ascii_lower
           (UpdatePost 2 (JObj [("title"%string, JStr "T")])) POSTS0).
  - repeat constructor.
  - split; intros v H; [now injection H as <- | discriminate H].
Defined.

(** The title 5 on the seed collection. *)
Lemma non_string_title_breaks_witness :
  let after := POSTS0 ++ [Build_post 4 (JInt 5) (JStr "Y")] in
  (exists e, get_posts ascii_lower (Some "title"%string) None after = (Raised e, after))
  /\ (exists e, search_posts ascii_lower (Some "x"%string) None after = (Raised e, after)).
Proof.
  apply (non_string_title_breaks ascii_lower ascii_lower_keeps_nonempty
           [("title", JInt 5); ("content", JStr "Y")]%string POSTS0
           (JInt 5) (JStr "Y") None "x" None);
    try reflexivity.
  - left. reflexivity.
  - discriminate.
Defined.


(** The seed collection, the title query ["s"] and the content query
    ["SECOND"]. *)
Lemma search_narrows_witness :
  exists by_title,
    search_posts ascii_lower (Some "s"%string) None POSTS0
    = (Response (Posts by_title) 200, POSTS0)
    /\ fst (search_posts ascii_lower (Some "s"%string) (Some "SECOND"%string) POSTS0)
       = fst (search_posts ascii_lower None (Some "SECOND"%string) by_title).
Proof.
  apply (search_narrows ascii_lower ascii_lower_lowers_ascii
                        (Some "s"%string) (Some "SECOND"%string) POSTS0).
  repeat constructor.
Defined.

(** The seed collection sorted by title, ascending and then descending. *)
Lemma sort_overrides_witness :
  get_posts ascii_lower (Some "title"%string) (Some "desc"%string)
    (snd (get_posts ascii_lower (Some "title"%string) None POSTS0))
  = get_posts ascii_lower (Some "title"%string) (Some "desc"%string) POSTS0.
Proof.
  apply (sort_overrides ascii_lower "title" None (Some "desc"%string) POSTS0).
  - left. reflexivity.
  - left. reflexivity.
  - right. reflexivity.
  - repeat constructor.
Defined.

(** Post 2 of the seed collection is deleted: the next id is still 4. *)
Lemma delete_keeps_next_id_witness :
  next_id (snd (delete_post 2 POSTS0)) = next_id POSTS0
  /\ 2 < next_id (snd (delete_post 2 POSTS0)).
Proof.
  apply (delete_keeps_next_id 2 POSTS0 third_post).
  - right. right. now left.
  - reflexivity.
Defined.

(** Two creates, a delete and a sort after the start. *)
Lemma always_distinct_positive_witness :
  let rs := [CreatePost (JObj [("title", JStr "X"); ("content", JStr "Y")]%string);
             CreatePost (JObj [("title", JStr "Z"); ("content", JStr "W")]%string);
             DeletePost 2;
             GetPosts (Some "title"%string) (Some "desc"%string)] in
  map post_id (run ascii_lower rs POSTS0) = [5; 4; 3; 1]
  /\ unique_ids (run ascii_lower rs POSTS0)
  /\ Forall well_typed (run ascii_lower rs POSTS0).
Proof.
  intros rs. split; [reflexivity|].
  destruct (always_distinct_positive ascii_lower rs) as (Hu & _ & Ht).
  split; [exact Hu|]. apply Ht.
  repeat constructor; intros v H; injection H as <-; reflexivity.
Defined.

(** The second post of the seed collection. *)
Lemma found_by_own_fields_witness :
  exists found,
    search_posts ascii_lower (Some "Second post"%string)
                 (Some "This is the second post."%string) POSTS0
    = (Response (Posts found) 200, POSTS0)
    /\ In second_post found.
Proof.
  apply (found_by_own_fields ascii_lower POSTS0 second_post).
  - repeat constructor.
  - right. now left.
  - reflexivity.
  - reflexivity.
Defined.

End Laws.
